(** * Auto Index (app.js): a shallow embedding of the page controller

    The development follows the controller class [AutoIndex] of [app.js]
    method by method.  JavaScript strings are represented by the bytes of
    their UTF-8 encoding (well-formed strings only), so that the literals of
    the source can be written as they are; the values of a parsed
    [config.json] are a small inductive type of JSON values; the document is
    an explicit state record threaded through a state-and-exception monad. *)

From Stdlib Require Import String Ascii List ZArith Lia Bool Arith DecimalString
  DecimalN.
Import ListNotations.
Local Open Scope string_scope.
Local Open Scope nat_scope.
Set Warnings "-register-all".

(** ** Strings *)

Module Str.

(** The double quote, which the markup of the templates needs. *)
Definition dq : string := String (ascii_of_nat 34) "".

Fixpoint drop (n : nat) (s : string) : string :=
  match n, s with
  | O, _ => s
  | S _, "" => ""
  | S k, String _ r => drop k r
  end.

(** [s.slice(1)] *)
Definition slice1 (s : string) : string := drop 1 s.

Definition isEmpty (s : string) : bool :=
  match s with "" => true | _ => false end.

(** [s.startsWith(p)] *)
Fixpoint startsWith (p s : string) : bool :=
  match p with
  | "" => true
  | String a p' =>
      match s with
      | "" => false
      | String b s' => Ascii.eqb a b && startsWith p' s'
      end
  end.

Fixpoint all (f : ascii -> bool) (s : string) : bool :=
  match s with
  | "" => true
  | String c r => f c && all f r
  end.

Fixpoint any (f : ascii -> bool) (s : string) : bool :=
  match s with
  | "" => false
  | String c r => f c || any f r
  end.

(** [occurs p s]: [p] is a substring of [s]. *)
Fixpoint occurs (p s : string) : bool :=
  startsWith p s ||
  match s with
  | "" => false
  | String _ r => occurs p r
  end.

(** [s.split(sep)] for a one-character separator: the pieces between the
    separators, empty pieces included; never the empty list. *)
Fixpoint split (sep : ascii) (s : string) : list string :=
  match s with
  | "" => [""]
  | String c r =>
      if Ascii.eqb c sep then "" :: split sep r
      else match split sep r with
           | [] => [String c ""]
           | p :: ps => String c p :: ps
           end
  end.

(** [parts.join(sep)] *)
Fixpoint join (sep : string) (parts : list string) : string :=
  match parts with
  | [] => ""
  | [p] => p
  | p :: ps => p ++ sep ++ join sep ps
  end.

Fixpoint rev_acc (s acc : string) : string :=
  match s with
  | "" => acc
  | String c r => rev_acc r (String c acc)
  end.

Definition rev (s : string) : string := rev_acc s "".

End Str.

(** ** Completions

    A call of the source either returns, or throws.  [Unmodelled] marks the
    inputs on which the platform's behaviour is outside the fragment this
    development describes (regular-expression syntax in a query key, a
    string-valued [buttons]); it is never caught by [try]/[catch], so no
    statement about what the code does can be derived from it. *)

Inductive exn : Type :=
| TypeError
| SyntaxError
| LoadError.

Inductive completion (A : Type) : Type :=
| Normal (a : A)
| Throw (e : exn)
| Unmodelled.

Arguments Normal {A} a.
Arguments Throw {A} e.
Arguments Unmodelled {A}.

Definition bindC {A B} (c : completion A) (k : A -> completion B)
  : completion B :=
  match c with
  | Normal a => k a
  | Throw e => Throw e
  | Unmodelled => Unmodelled
  end.

(** ** Values of a parsed configuration document *)

Module Value.

(** A Number of the configuration is kept as its [ToString] image. *)
Inductive value : Type :=
| VUndefined
| VNull
| VBool (b : bool)
| VNum (image : string)
| VStr (s : string)
| VArr (elems : list value)
| VObj (fields : list (string * value))
| VNative (name : string).

(** The property names the controller reads. *)
Inductive prop : Type :=
| title | description | fontFamily | fontUrl | background | logo
| backgroundColor | pageBackgroundColor | imageBackgroundColor
| buttonBackgroundColor | pageButtonBackgroundColor
| imageButtonBackgroundColor
| buttonTextColor | pageButtonTextColor | imageButtonTextColor
| textColor | buttons | text | subtitle | icon | image | link | linkText.

Definition prop_name (p : prop) : string :=
  match p with
  | title => "title" | description => "description"
  | fontFamily => "fontFamily" | fontUrl => "fontUrl"
  | background => "background" | logo => "logo"
  | backgroundColor => "backgroundColor"
  | pageBackgroundColor => "pageBackgroundColor"
  | imageBackgroundColor => "imageBackgroundColor"
  | buttonBackgroundColor => "buttonBackgroundColor"
  | pageButtonBackgroundColor => "pageButtonBackgroundColor"
  | imageButtonBackgroundColor => "imageButtonBackgroundColor"
  | buttonTextColor => "buttonTextColor"
  | pageButtonTextColor => "pageButtonTextColor"
  | imageButtonTextColor => "imageButtonTextColor"
  | textColor => "textColor" | buttons => "buttons" | text => "text"
  | subtitle => "subtitle" | icon => "icon" | image => "image"
  | link => "link" | linkText => "linkText"
  end.

Fixpoint lookup (k : string) (fields : list (string * value))
  : option value :=
  match fields with
  | [] => None
  | (k', v) :: r => if String.eqb k k' then Some v else lookup k r
  end.

Definition hasOwn (k : string) (fields : list (string * value)) : bool :=
  match lookup k fields with Some _ => true | None => false end.

(** [v.p]: a TypeError on [undefined] and [null]; an own property of an
    object; [String.prototype.link] on a string; [undefined] otherwise
    (no other name of [prop] is on a built-in prototype). *)
Definition get (v : value) (p : prop) : completion value :=
  match v with
  | VUndefined | VNull => Throw TypeError
  | VObj fields =>
      match lookup (prop_name p) fields with
      | Some x => Normal x
      | None => Normal VUndefined
      end
  | VStr _ =>
      match p with
      | link => Normal (VNative "link")
      | _ => Normal VUndefined
      end
  | _ => Normal VUndefined
  end.

(** ToBoolean *)
Definition truthy (v : value) : bool :=
  match v with
  | VUndefined | VNull => false
  | VBool b => b
  | VNum i => negb (String.eqb i "0" || String.eqb i "NaN")
  | VStr s => negb (Str.isEmpty s)
  | VArr _ | VObj _ | VNative _ => true
  end.

Definition nullish (v : value) : bool :=
  match v with
  | VUndefined | VNull => true
  | _ => false
  end.

(** [a || b] and [a ?? b] on already evaluated operands (the right
    operands of the source are property reads of a value that has been
    read before, or literals, and cannot throw where the left did not). *)
Definition or (a b : value) : value := if truthy a then a else b.
Definition coalesce (a b : value) : value := if nullish a then b else a.

(** ToString, as a template literal applies it.  An object of the
    configuration with an own [toString] has no callable conversion
    method left and the conversion throws. *)
Fixpoint toString (v : value) : completion string :=
  match v with
  | VUndefined => Normal "undefined"
  | VNull => Normal "null"
  | VBool true => Normal "true"
  | VBool false => Normal "false"
  | VNum i => Normal i
  | VStr s => Normal s
  | VArr elems =>
      (fix joinElems (l : list value) : completion string :=
         match l with
         | [] => Normal ""
         | e :: r =>
             bindC (if nullish e then Normal "" else toString e) (fun se =>
             match r with
             | [] => Normal se
             | _ => bindC (joinElems r) (fun sr => Normal (se ++ "," ++ sr))
             end)
         end) elems
  | VObj fields =>
      if hasOwn "toString" fields then Throw TypeError
      else Normal "[object Object]"
  | VNative name => Normal ("function " ++ name ++ "() { [native code] }")
  end.

End Value.
Import Value.

(** ** [String.prototype.replace] with a global literal pattern *)

Module Replace.

(** GetSubstitution for a match without capture groups: [$$] stands for a
    dollar, [$&] for the matched text, [$`] and [$'] for the text before
    and after the match; any other dollar is literal. *)
Fixpoint getSubstitution (matched before after template : string)
  : string :=
  match template with
  | "" => ""
  | String c r =>
      if Ascii.eqb c "$" then
        match r with
        | String d r' =>
            if Ascii.eqb d "$" then
              String "$" (getSubstitution matched before after r')
            else if Ascii.eqb d "&" then
              matched ++ getSubstitution matched before after r'
            else if Ascii.eqb d "`" then
              before ++ getSubstitution matched before after r'
            else if Ascii.eqb d "'" then
              after ++ getSubstitution matched before after r'
            else String c (getSubstitution matched before after r)
        | "" => String c ""
        end
      else String c (getSubstitution matched before after r)
  end.

(** The scan of [s.replace(/needle/g, template)]: matches are looked for
    from left to right in the subject itself and do not overlap; [before]
    is the part of the subject already passed, [skip] the number of
    characters of the last match still to pass. *)
Fixpoint scan (needle template before : string) (skip : nat) (s : string)
  : string :=
  match s with
  | "" => ""
  | String c r =>
      match skip with
      | S k => scan needle template (before ++ String c "") k r
      | O =>
          if Str.startsWith needle s then
            getSubstitution needle before
              (Str.drop (String.length needle) s) template
            ++ scan needle template (before ++ String c "")
                 (String.length needle - 1) r
          else String c (scan needle template (before ++ String c "") 0 r)
      end
  end.

(** [needle] is never empty in this program (it holds two braces). *)
Definition replaceAll (needle template s : string) : string :=
  scan needle template "" 0 s.

End Replace.

(** ** [URLSearchParams] *)

Module URLSearchParams.

Definition hexValue (c : ascii) : option nat :=
  let n := nat_of_ascii c in
  if (48 <=? n) && (n <=? 57) then Some (n - 48)
  else if (65 <=? n) && (n <=? 70) then Some (n - 55)
  else if (97 <=? n) && (n <=? 102) then Some (n - 87)
  else None.

(** Percent-decode: a [%] followed by two hexadecimal digits is the byte
    they write; any other byte stands for itself. *)
Fixpoint percentDecode (s : string) : string :=
  match s with
  | "" => ""
  | String c r =>
      if Ascii.eqb c "%" then
        match r with
        | String h (String l r') =>
            match hexValue h, hexValue l with
            | Some a, Some b =>
                String (ascii_of_nat (16 * a + b)) (percentDecode r')
            | _, _ => String c (percentDecode r)
            end
        | _ => String c (percentDecode r)
        end
      else String c (percentDecode r)
  end.

(** U+FFFD in UTF-8 *)
Definition replacement : string :=
  String (ascii_of_nat 239) (String (ascii_of_nat 191)
    (String (ascii_of_nat 189) "")).

(** State of the UTF-8 decoder: continuation bytes still needed, the
    bounds of the next one, and the bytes of the sequence read so far. *)
Record decoder : Type :=
  { needed : nat; lower : nat; upper : nat; pending : string }.

Definition idle : decoder :=
  {| needed := 0; lower := 128; upper := 191; pending := "" |}.

(** A byte read with no sequence open. *)
Definition lead (b : ascii) : string * decoder :=
  let n := nat_of_ascii b in
  if n <=? 127 then (String b "", idle)
  else if (194 <=? n) && (n <=? 223) then
    ("", {| needed := 1; lower := 128; upper := 191;
            pending := String b "" |})
  else if (224 <=? n) && (n <=? 239) then
    ("", {| needed := 2;
            lower := if n =? 224 then 160 else 128;
            upper := if n =? 237 then 159 else 191;
            pending := String b "" |})
  else if (240 <=? n) && (n <=? 244) then
    ("", {| needed := 3;
            lower := if n =? 240 then 144 else 128;
            upper := if n =? 244 then 143 else 191;
            pending := String b "" |})
  else (replacement, idle).

(** UTF-8 decode without BOM, ill-formed sequences replaced by U+FFFD;
    the result is again written in UTF-8. *)
Fixpoint utf8Decode (st : decoder) (s : string) : string :=
  match s with
  | "" => match needed st with O => "" | S _ => replacement end
  | String b r =>
      match needed st with
      | O => let (out, st') := lead b in out ++ utf8Decode st' r
      | S k =>
          let n := nat_of_ascii b in
          if (lower st <=? n) && (n <=? upper st) then
            match k with
            | O => (pending st ++ String b "") ++ utf8Decode idle r
            | S _ =>
                utf8Decode {| needed := k; lower := 128; upper := 191;
                              pending := pending st ++ String b "" |} r
            end
          else
            replacement ++
            (let (out, st') := lead b in out ++ utf8Decode st' r)
      end
  end.

Fixpoint plusToSpace (s : string) : string :=
  match s with
  | "" => ""
  | String c r =>
      String (if Ascii.eqb c "+" then " "%char else c) (plusToSpace r)
  end.

(** The name and the value of one sequence: split at the first [=]. *)
Fixpoint splitPair (s : string) : string * string :=
  match s with
  | "" => ("", "")
  | String c r =>
      if Ascii.eqb c "=" then ("", r)
      else let (n, v) := splitPair r in (String c n, v)
  end.

Definition decodeComponent (s : string) : string :=
  utf8Decode idle (percentDecode (plusToSpace s)).

(** The application/x-www-form-urlencoded parser. *)
Definition parse (input : string) : list (string * string) :=
  map (fun seq => let (n, v) := splitPair seq in
                  (decodeComponent n, decodeComponent v))
      (filter (fun seq => negb (Str.isEmpty seq)) (Str.split "&" input)).

(** [new URLSearchParams(init)]: one leading [?] is dropped. *)
Definition new (init : string) : list (string * string) :=
  parse (if Str.startsWith "?" init then Str.drop 1 init else init).

End URLSearchParams.

(** ** [RegExp]: the patterns of placeholder substitution

    The only patterns the controller compiles at run time have the source
    [\{key\}].  When [key] holds no syntax character the pattern matches
    the text [{key}] and nothing else.  When the only syntax characters of
    [key] are parentheses that do not pair up, the constructor throws a
    SyntaxError.  Any other pattern is outside the modelled fragment. *)

Module RegExp.

Definition isSyntaxCharacter (c : ascii) : bool :=
  Str.any (Ascii.eqb c) "^$\.*+?()[]{}|".

Definition isParen (c : ascii) : bool :=
  Ascii.eqb c "(" || Ascii.eqb c ")".

(** Every closing parenthesis closes a group and every group is closed. *)
Fixpoint groupsPair (depth : nat) (s : string) : bool :=
  match s with
  | "" => depth =? 0
  | String c r =>
      if Ascii.eqb c "(" then groupsPair (S depth) r
      else if Ascii.eqb c ")" then
        match depth with
        | O => false
        | S d => groupsPair d r
        end
      else groupsPair depth r
  end.

Definition plain (key : string) : bool :=
  Str.all (fun c => negb (isSyntaxCharacter c)) key.

(** The text a pattern with body [key] between escaped braces matches. *)
Definition compileBody (key : string) : completion string :=
  if plain key then Normal ("{" ++ key ++ "}")
  else if Str.all (fun c => negb (isSyntaxCharacter c) || isParen c) key
  then if groupsPair 0 key then Unmodelled else Throw SyntaxError
  else Unmodelled.

Definition stripPrefix (p s : string) : option string :=
  if Str.startsWith p s then Some (Str.drop (String.length p) s) else None.

Fixpoint stripSuffix (suf s : string) : option string :=
  if String.eqb s suf then Some ""
  else match s with
       | "" => None
       | String c r => option_map (String c) (stripSuffix suf r)
       end.

(** [new RegExp(source, 'g')] *)
Definition new (source : string) : completion string :=
  match stripPrefix "\{" source with
  | Some r =>
      match stripSuffix "\}" r with
      | Some key => compileBody key
      | None => Unmodelled
      end
  | None => Unmodelled
  end.

End RegExp.

(** ** The controller: placeholder substitution *)

(** One pass of [params.forEach]: every pair of the query string, in the
    order of the query string, repeated keys included. *)
Fixpoint forEachParam (params : list (string * string)) (result : string)
  : completion string :=
  match params with
  | [] => Normal result
  | (key, value) :: rest =>
      bindC (RegExp.new ("\{" ++ key ++ "\}")) (fun needle =>
      forEachParam rest (Replace.replaceAll needle value result))
  end.

Definition replaceQueryPlaceholder (url : value) (queryString : string)
  : completion string :=
  match url with
  | VStr u =>
      let result := Replace.replaceAll "{query}" queryString u in
      if Str.isEmpty queryString then Normal result
      else forEachParam (URLSearchParams.new queryString) result
  | _ => Throw TypeError
  end.

(** ** Numbers

    The only Numbers the controller computes with are indexes: the result
    of [parseInt] on a string of decimal digits.  Such a Number is a
    non-negative integer that a double holds exactly, or [Infinity].  The
    rounding of a double (53 significant bits, ties to even, overflow to
    [Infinity]) is written out on [Z]. *)

Module Number.

Local Open Scope Z_scope.

Inductive number : Type :=
| Finite (z : Z)
| Infinity.

(** The double nearest to a non-negative integer. *)
Definition roundToDouble (z : Z) : number :=
  if z <? 2 ^ 53 then Finite z
  else
    let e := Z.log2 z - 52 in
    let q := z / 2 ^ e in
    let r := z mod 2 ^ e in
    let half := 2 ^ (e - 1) in
    let q' := if r <? half then q
              else if half <? r then q + 1
              else if Z.even q then q else q + 1 in
    let v := q' * 2 ^ e in
    if 2 ^ 1024 <=? v then Infinity else Finite v.

Definition isDigit (c : ascii) : bool :=
  let n := nat_of_ascii c in (48 <=? n)%nat && (n <=? 57)%nat.

Definition digitValue (c : ascii) : Z := Z.of_nat (nat_of_ascii c) - 48.

(** The integer a string of decimal digits writes. *)
Fixpoint decimalValue (acc : Z) (s : string) : Z :=
  match s with
  | "" => acc
  | String c r => decimalValue (10 * acc + digitValue c) r
  end.

(** [parseInt(s)] for [s] a non-empty string of decimal digits (the
    conversion is exact, as engines do it; the standard lets an engine
    drop the digits after the twentieth). *)
Definition parseInt (s : string) : number := roundToDouble (decimalValue 0 s).

Definition decimal (z : Z) : string :=
  DecimalString.NilZero.string_of_uint (N.to_uint (Z.to_N z)).

Definition digitCount (z : Z) : Z := Z.of_nat (String.length (decimal z)).

Definition dist (a b : Z) : Z := Z.abs (a - b).

(** The candidates [s * 10 ^ p] with [k] digits in [s] that round to [x],
    for the two neighbours of [x / 10 ^ p]. *)
Definition candidates (x k p : Z) : list Z :=
  filter (fun s => (10 ^ (k - 1) <=? s) && (s <? 10 ^ k) &&
                   match roundToDouble (s * 10 ^ p) with
                   | Finite v => v =? x
                   | Infinity => false
                   end)
         [x / 10 ^ p; x / 10 ^ p + 1].

(** Of the candidates the one nearest to [x], the even one on a tie. *)
Definition nearest (x p : Z) (cs : list Z) : option Z :=
  match cs with
  | [] => None
  | [a] => Some a
  | a :: b :: _ =>
      let da := dist (a * 10 ^ p) x in
      let db := dist (b * 10 ^ p) x in
      if da <? db then Some a
      else if db <? da then Some b
      else if Z.even a then Some a else Some b
  end.

(** The shortest digit string [s] and the exponent [n] of Number::toString:
    [k] runs upwards from one digit, [n] is the digit count of [x] or one
    more. *)
Fixpoint shortest (fuel : nat) (x k : Z) : option (Z * Z) :=
  match fuel with
  | O => None
  | S f =>
      let n := digitCount x in
      match nearest x (n - k) (candidates x k (n - k)) with
      | Some s => Some (s, n)
      | None =>
          match nearest x (n + 1 - k) (candidates x k (n + 1 - k)) with
          | Some s => Some (s, n + 1)
          | None => shortest f x (k + 1)
          end
      end
  end.

Fixpoint zeros (n : nat) : string :=
  match n with
  | O => ""
  | S k => String "0" (zeros k)
  end.

(** ToString of an index. *)
Definition toString (x : number) : string :=
  match x with
  | Infinity => "Infinity"
  | Finite z =>
      if z <? 2 ^ 53 then decimal z
      else
        match shortest 17 z 1 with
        | None => decimal z
        | Some (s, n) =>
            let ds := decimal s in
            let k := digitCount s in
            if n <=? 21 then ds ++ zeros (Z.to_nat (n - k))
            else
              match ds with
              | String d "" => String d "" ++ "e+" ++ decimal (n - 1)
              | String d more =>
                  String d "" ++ "." ++ more ++ "e+" ++ decimal (n - 1)
              | "" => ""
              end
        end
  end.

End Number.
Import Number.

(** ** The controller: the location parser *)

Record location : Type :=
  { pathname : string; search : string }.

Record navigation : Type :=
  { pagePath : option string;
    imageIndex : option number;
    queryString : string }.

Definition isSlash (c : ascii) : bool := Ascii.eqb c "/".

(** The longest prefix without a slash, and what follows it. *)
Fixpoint segment (s : string) : string * string :=
  match s with
  | "" => ("", "")
  | String c r =>
      if isSlash c then ("", s)
      else let (seg, tail) := segment r in (String c seg, tail)
  end.

(** [path.match(/^\/([^\/]+)(?:\/image\/(\d+))?$/)]: the two groups of a
    match, the second one [None] when the optional part took no part. *)
Definition matchPath (path : string) : option (string * option string) :=
  match path with
  | String c rest =>
      if isSlash c then
        let (seg, tail) := segment rest in
        if Str.isEmpty seg then None
        else if Str.isEmpty tail then Some (seg, None)
        else
          match RegExp.stripPrefix "/image/" tail with
          | Some digits =>
              if negb (Str.isEmpty digits) && Str.all isDigit digits
              then Some (seg, Some digits)
              else None
          | None => None
          end
      else None
  | "" => None
  end.

Definition parseURL (loc : location) : navigation :=
  let path := pathname loc in
  let queryString := Str.slice1 (search loc) in
  match matchPath path with
  | None =>
      {| pagePath := None; imageIndex := None; queryString := queryString |}
  | Some (m1, m2) =>
      if String.eqb m1 "index.html" then
        {| pagePath := None; imageIndex := None; queryString := queryString |}
      else
        {| pagePath := Some m1;
           imageIndex := match m2 with
                         | Some digits => Some (parseInt digits)
                         | None => None
                         end;
           queryString := queryString |}
  end.

(** ** The document

    What the controller reads and writes of the page: the title, the
    [content] of the description [meta] element (when the page has one),
    the [link] elements of the head and of the body in document order, the
    markup of the [#app] element, and the errors written to the console. *)

Record linkElement : Type :=
  { rel : option string;
    customFont : bool;          (* carries the attribute data-custom-font *)
    href : option string }.     (* the href attribute as it was set *)

Record document : Type :=
  { docTitle : string;
    metaDescription : option string;
    headLinks : list linkElement;
    bodyLinks : list linkElement;
    appHTML : string;
    console : list exn }.

(** ** State and exceptions

    A method runs on the document and leaves it changed also when it
    throws: what it wrote before the fault stays written. *)

Definition M (A : Type) : Type := document -> completion A * document.

Definition ret {A} (a : A) : M A := fun d => (Normal a, d).

Definition bind {A B} (m : M A) (k : A -> M B) : M B :=
  fun d =>
    match m d with
    | (Normal a, d') => k a d'
    | (Throw e, d') => (Throw e, d')
    | (Unmodelled, d') => (Unmodelled, d')
    end.

Definition lift {A} (c : completion A) : M A := fun d => (c, d).

Definition modify (f : document -> document) : M unit :=
  fun d => (Normal tt, f d).

Definition gets {A} (f : document -> A) : M A := fun d => (Normal (f d), d).

(** [try { body } catch (error) { handler(error) }] *)
Definition tryCatch {A} (body : M A) (handler : exn -> M A) : M A :=
  fun d =>
    match body d with
    | (Throw e, d') => handler e d'
    | r => r
    end.

Declare Scope js_scope.
Delimit Scope js_scope with js.
Notation "x <- m ;; k" := (bind m (fun x => k))
  (at level 61, m at next level, right associativity) : js_scope.
Notation "m ;;; k" := (bind m (fun _ => k))
  (at level 61, right associativity) : js_scope.
Local Open Scope js_scope.

(** [items.map(f)] for a callback that can throw, left to right. *)
Fixpoint mapC {A B} (f : A -> nat -> completion B) (i : nat) (l : list A)
  : completion (list B) :=
  match l with
  | [] => Normal []
  | a :: r =>
      bindC (f a i) (fun b =>
      bindC (mapC f (S i) r) (fun bs => Normal (b :: bs)))
  end.

(** ** The controller: resources, fonts, styles *)

Definition basePath : string := "/pages".

Definition q (s : string) : string := Str.dq ++ s ++ Str.dq.

(** [getResourcePath]: [None] stands for [null]. *)
Definition getResourcePath (pagePath : string) (resource : value)
  : completion (option string) :=
  if negb (truthy resource) then Normal None
  else
    match resource with
    | VStr r =>
        if Str.startsWith "http" r then Normal (Some r)
        else Normal (Some (basePath ++ "/" ++ pagePath ++ "/" ++ r))
    | _ => Throw TypeError
    end.

(** A line break of a template, with the indentation that follows it. *)
Fixpoint spaces (n : nat) : string :=
  match n with
  | O => ""
  | S k => String " " (spaces k)
  end.

Definition nl (n : nat) : string := String (ascii_of_nat 10) (spaces n).

Module Trim.

Definition bytes (l : list nat) : string :=
  fold_right (fun n s => String (ascii_of_nat n) s) "" l.

(** White space and line terminators, in UTF-8: U+0009 to U+000D, U+0020,
    U+00A0, U+1680, U+2000 to U+200A, U+2028, U+2029, U+202F, U+205F,
    U+3000, U+FEFF. *)
Definition whiteSpace : list (list nat) :=
  [ [9]; [10]; [11]; [12]; [13]; [32]; [194; 160]; [225; 154; 128];
    [226; 128; 128]; [226; 128; 129]; [226; 128; 130]; [226; 128; 131];
    [226; 128; 132]; [226; 128; 133]; [226; 128; 134]; [226; 128; 135];
    [226; 128; 136]; [226; 128; 137]; [226; 128; 138];
    [226; 128; 168]; [226; 128; 169]; [226; 128; 175]; [226; 129; 159];
    [227; 128; 128]; [239; 187; 191] ].

Fixpoint stripOne (seqs : list string) (s : string) : option string :=
  match seqs with
  | [] => None
  | w :: r =>
      match RegExp.stripPrefix w s with
      | Some rest => Some rest
      | None => stripOne r s
      end
  end.

Fixpoint stripAll (fuel : nat) (seqs : list string) (s : string) : string :=
  match fuel with
  | O => s
  | S f =>
      match stripOne seqs s with
      | Some rest => stripAll f seqs rest
      | None => s
      end
  end.

Definition trimStart (s : string) : string :=
  stripAll (String.length s) (map bytes whiteSpace) s.

Definition trimEnd (s : string) : string :=
  Str.rev (stripAll (String.length s)
             (map (fun w => bytes (List.rev w)) whiteSpace) (Str.rev s)).

(** [s.trim()] *)
Definition trim (s : string) : string := trimEnd (trimStart s).

End Trim.

Module URI.

Definition isUnreserved (c : ascii) : bool :=
  let n := nat_of_ascii c in
  ((48 <=? n) && (n <=? 57)) || ((65 <=? n) && (n <=? 90))
  || ((97 <=? n) && (n <=? 122)) || Str.any (Ascii.eqb c) "-_.!~*'()".

Definition hexDigit (n : nat) : ascii :=
  ascii_of_nat (if n <? 10 then 48 + n else 55 + n).

(** [encodeURIComponent(s)] on a well-formed string: every byte of the
    UTF-8 encoding outside the unreserved set becomes [%XX]. *)
Fixpoint encodeURIComponent (s : string) : string :=
  match s with
  | "" => ""
  | String c r =>
      if isUnreserved c then String c (encodeURIComponent r)
      else
        let n := nat_of_ascii c in
        String "%" (String (hexDigit (n / 16)) (String (hexDigit (n mod 16))
          (encodeURIComponent r)))
  end.

End URI.

(** [getFontUrl]: the value of [fontUrl], a derived address, or [null]. *)
Definition getFontUrl (config : value) : completion value :=
  bindC (get config fontUrl) (fun url =>
  if truthy url then Normal url
  else
    bindC (get config fontFamily) (fun family =>
    if negb (truthy family) then Normal VNull
    else
      match family with
      | VStr f =>
          let familyName := Trim.trim (hd "" (Str.split "," f)) in
          if Str.isEmpty familyName then Normal VNull
          else Normal (VStr ("https://fonts.googleapis.com/css2?family="
                             ++ URI.encodeURIComponent familyName
                             ++ ":wght@400;500;600;700&display=swap"))
      | _ => Throw TypeError
      end)).

(** [buildStyleVars] *)
Definition buildStyleVars (backgroundColor textColor : value)
  : completion string :=
  bindC (if truthy backgroundColor
         then bindC (Value.toString backgroundColor) (fun s =>
              Normal ["--btn-bg: " ++ s])
         else Normal []) (fun part1 =>
  bindC (if truthy textColor
         then bindC (Value.toString textColor) (fun s =>
              Normal ["--btn-text: " ++ s])
         else Normal []) (fun part2 =>
  let styleParts := (part1 ++ part2)%list in
  match styleParts with
  | [] => Normal ""
  | _ => Normal (" style=" ++ q (Str.join "; " styleParts))
  end)).

(** ** The controller: the document's chrome and the error view *)

Section Controller.

(** The address a [link] element reports for its [href] attribute: the
    attribute resolved against the document by the browser. *)
Variable resolveURL : string -> string.

Definition hrefOf (l : linkElement) : string :=
  match href l with
  | Some a => resolveURL a
  | None => ""
  end.

Definition setHref (a : string) (l : linkElement) : linkElement :=
  {| rel := rel l; customFont := customFont l; href := Some a |}.

(** [document.querySelector('link[data-custom-font]')] *)
Definition customFontLink (d : document) : option linkElement :=
  find customFont (headLinks d ++ bodyLinks d)%list.

(** Apply [f] to the first element with [data-custom-font]. *)
Fixpoint updateFirst (f : linkElement -> linkElement)
  (ls : list linkElement) : list linkElement :=
  match ls with
  | [] => []
  | l :: r => if customFont l then f l :: r else l :: updateFirst f r
  end.

Definition updateCustomFontLink (f : linkElement -> linkElement)
  (d : document) : document :=
  {| docTitle := docTitle d;
     metaDescription := metaDescription d;
     headLinks := if existsb customFont (headLinks d)
                  then updateFirst f (headLinks d) else headLinks d;
     bodyLinks := if existsb customFont (headLinks d)
                  then bodyLinks d else updateFirst f (bodyLinks d);
     appHTML := appHTML d;
     console := console d |}.

Definition appendToHead (l : linkElement) (d : document) : document :=
  {| docTitle := docTitle d;
     metaDescription := metaDescription d;
     headLinks := (headLinks d ++ [l])%list;
     bodyLinks := bodyLinks d;
     appHTML := appHTML d;
     console := console d |}.

Definition newFontLink : linkElement :=
  {| rel := Some "stylesheet"; customFont := true; href := None |}.

Definition ensureFont (config : value) : M unit :=
  fontUrl <- lift (getFontUrl config) ;;
  if negb (truthy fontUrl) then ret tt
  else
    found <- gets customFontLink ;;
    l <- match found with
         | Some l => ret l
         | None => modify (appendToHead newFontLink) ;;; ret newFontLink
         end ;;
    if match fontUrl with
       | VStr f => String.eqb (hrefOf l) f
       | _ => false
       end
    then ret tt
    else
      a <- lift (Value.toString fontUrl) ;;
      modify (updateCustomFontLink (setHref a)).

Definition setTitle (t : string) (d : document) : document :=
  {| docTitle := t;
     metaDescription := metaDescription d;
     headLinks := headLinks d;
     bodyLinks := bodyLinks d;
     appHTML := appHTML d;
     console := console d |}.

Definition setMetaContent (c : string) (d : document) : document :=
  {| docTitle := docTitle d;
     metaDescription := Some c;
     headLinks := headLinks d;
     bodyLinks := bodyLinks d;
     appHTML := appHTML d;
     console := console d |}.

Definition setAppHTML (h : string) (d : document) : document :=
  {| docTitle := docTitle d;
     metaDescription := metaDescription d;
     headLinks := headLinks d;
     bodyLinks := bodyLinks d;
     appHTML := h;
     console := console d |}.

Definition consoleError (e : exn) (d : document) : document :=
  {| docTitle := docTitle d;
     metaDescription := metaDescription d;
     headLinks := headLinks d;
     bodyLinks := bodyLinks d;
     appHTML := appHTML d;
     console := (console d ++ [e])%list |}.

Definition updatePageMeta (title description : value) : M unit :=
  (if truthy title
   then t <- lift (Value.toString title) ;; modify (setTitle t)
   else ret tt) ;;;
  meta <- gets metaDescription ;;
  match meta with
  | Some _ =>
      c <- lift (Value.toString (Value.or description (VStr ""))) ;;
      modify (setMetaContent c)
  | None => ret tt
  end.

Definition errorView (title message : string) : string :=
  nl 12 ++ "<div class=" ++ q "error-page" ++ ">"
  ++ nl 16 ++ "<h1>😕</h1>"
  ++ nl 16 ++ "<h2>" ++ title ++ "</h2>"
  ++ nl 16 ++ "<p>" ++ message ++ "</p>"
  ++ nl 16 ++ "<a href=" ++ q "/" ++ ">返回首页</a>"
  ++ nl 12 ++ "</div>"
  ++ nl 8.

Definition renderError (title message : string) : M unit :=
  updatePageMeta (VStr title) (Value.or (VStr message) (VStr "")) ;;;
  modify (setAppHTML (errorView title message)).

(** ** The controller: the two screens *)

(** [a || b] where [b] is only read when [a] is falsy. *)
Definition getOr (v : value) (p1 p2 : prop) : completion value :=
  bindC (get v p1) (fun a =>
  if truthy a then Normal a else get v p2).

(** [cond ? `open${cond}close` : ''] *)
Definition optionalPart (opening : string) (v : value) (closing : string)
  : completion string :=
  if truthy v
  then bindC (Value.toString v) (fun s => Normal (opening ++ s ++ closing))
  else Normal "".

Definition cardView (idx btnStyle iconPart btnText subtitlePart : string)
  : string :=
  nl 28 ++ "<div class=" ++ q "btn-card" ++ " data-index=" ++ q idx
  ++ btnStyle ++ ">"
  ++ nl 32 ++ "<div class=" ++ q "btn-left" ++ ">"
  ++ nl 36 ++ iconPart
  ++ nl 36 ++ "<div class=" ++ q "btn-titles" ++ ">"
  ++ nl 40 ++ "<div class=" ++ q "text" ++ ">" ++ btnText ++ "</div>"
  ++ nl 40 ++ subtitlePart
  ++ nl 36 ++ "</div>"
  ++ nl 32 ++ "</div>"
  ++ nl 32 ++ "<div class=" ++ q "btn-right" ++ ">›</div>"
  ++ nl 28 ++ "</div>"
  ++ nl 24.

(** The callback of [config.buttons.map] on the list screen. *)
Definition buttonCard (pageButtonBackgroundColor pageButtonTextColor : value)
  (btn : value) (idx : nat) : completion string :=
  bindC (get btn backgroundColor) (fun ownBg =>
  let bg := Value.coalesce ownBg pageButtonBackgroundColor in
  bindC (get btn textColor) (fun ownText =>
  let text_ := Value.coalesce ownText pageButtonTextColor in
  bindC (buildStyleVars bg text_) (fun btnStyle =>
  let idx := Number.decimal (Z.of_nat idx) in
  bindC (get btn icon) (fun ic =>
  bindC (optionalPart ("<div class=" ++ q "icon" ++ ">") ic "</div>")
    (fun iconPart =>
  bindC (get btn text) (fun t =>
  bindC (Value.toString t) (fun btnText =>
  bindC (get btn subtitle) (fun st =>
  bindC (optionalPart ("<div class=" ++ q "subtitle" ++ ">") st "</div>")
    (fun subtitlePart =>
  Normal (cardView idx btnStyle iconPart btnText subtitlePart)))))))))).

(** [config.buttons.map(callback).join('')]: only an array has [map]. *)
Definition buttonCards (pageButtonBackgroundColor pageButtonTextColor : value)
  (btns : value) : completion string :=
  match btns with
  | VArr elems =>
      bindC (mapC (buttonCard pageButtonBackgroundColor pageButtonTextColor)
               0 elems) (fun cards =>
      Normal (Str.join "" cards))
  | _ => Throw TypeError
  end.

Definition listView (containerStyle logoPart titleText descPart cards
  : string) : string :=
  nl 12 ++ "<div class=" ++ q "page-container" ++ " style="
  ++ q containerStyle ++ ">"
  ++ nl 16 ++ "<div class=" ++ q "page-overlay" ++ ">"
  ++ nl 20 ++ "<header class=" ++ q "header" ++ ">"
  ++ nl 24 ++ logoPart
  ++ nl 24 ++ "<h1 class=" ++ q "page-title" ++ ">" ++ titleText
  ++ "</h1>"
  ++ nl 24 ++ descPart
  ++ nl 20 ++ "</header>"
  ++ nl 20 ++ "<div class=" ++ q "buttons-list" ++ ">"
  ++ nl 24 ++ cards
  ++ nl 20 ++ "</div>"
  ++ nl 16 ++ "</div>"
  ++ nl 12 ++ "</div>"
  ++ nl 8.

(** [renderButtonsPage].  The click listeners it then installs on the
    cards of the parsed markup are not part of the document record. *)
Definition renderButtonsPage (pagePath : string) (config : value)
  (queryString : string) : M unit :=
  ensureFont config ;;;
  bg <- lift (get config background) ;;
  backgroundUrl <- lift (getResourcePath pagePath bg) ;;
  lg <- lift (get config logo) ;;
  logoUrl <- lift (getResourcePath pagePath lg) ;;
  ttl <- lift (get config title) ;;
  dsc <- lift (get config description) ;;
  updatePageMeta (Value.or ttl (VStr pagePath)) (Value.or dsc (VStr "")) ;;;
  pageBackgroundColor <-
    lift (getOr config pageBackgroundColor backgroundColor) ;;
  pageButtonBackgroundColor <-
    lift (getOr config pageButtonBackgroundColor buttonBackgroundColor) ;;
  pageButtonTextColor <-
    lift (getOr config pageButtonTextColor buttonTextColor) ;;
  part1 <- ret (match backgroundUrl with
                | Some u => ["background-image: url('" ++ u ++ "')"]
                | None => []
                end) ;;
  part2 <- lift (if truthy pageBackgroundColor
                 then bindC (Value.toString pageBackgroundColor) (fun s =>
                      Normal ["background-color: " ++ s])
                 else Normal []) ;;
  family <- lift (get config fontFamily) ;;
  part3 <- lift (if truthy family
                 then bindC (Value.toString family) (fun s =>
                      Normal ["font-family: " ++ s])
                 else Normal []) ;;
  let containerStyle := Str.join "; " (part1 ++ part2 ++ part3)%list in
  let logoPart :=
    match logoUrl with
    | Some u => "<img src=" ++ q u ++ " alt=" ++ q "Logo" ++ " class="
                ++ q "logo" ++ ">"
    | None => ""
    end in
  titleText <- lift (Value.toString (Value.or ttl (VStr pagePath))) ;;
  descPart <- lift (optionalPart ("<p class=" ++ q "page-desc" ++ ">")
                      dsc "</p>") ;;
  btns <- lift (get config buttons) ;;
  cards <- lift (buttonCards pageButtonBackgroundColor pageButtonTextColor
                   btns) ;;
  modify (setAppHTML
            (listView containerStyle logoPart titleText descPart cards)).

(** The element of an array at an index, [None] past its end. *)
Fixpoint nthZ (l : list value) (z : Z) : option value :=
  match l with
  | [] => None
  | e :: r => if (z =? 0)%Z then Some e else nthZ r (z - 1)%Z
  end.

(** [v[n]] for an index [n]: a TypeError on [undefined] and [null]; the
    element of an array; the own property named by the index of an
    object; [undefined] otherwise.  The characters of a string-valued
    [buttons] are outside the model. *)
Definition getIndex (v : value) (n : number) : completion value :=
  match v with
  | VUndefined | VNull => Throw TypeError
  | VArr elems =>
      match n with
      | Finite z =>
          match nthZ elems z with
          | Some e => Normal e
          | None => Normal VUndefined
          end
      | Infinity => Normal VUndefined
      end
  | VObj fields =>
      match lookup (Number.toString n) fields with
      | Some e => Normal e
      | None => Normal VUndefined
      end
  | VStr _ => Unmodelled
  | _ => Normal VUndefined
  end.

Definition imageNotFound (imageIndex : number) : string :=
  "找不到索引为 " ++ Number.toString imageIndex ++ " 的按钮".

Definition detailView (imagePageStyle backUrl imagePart finalLink
  imageButtonVarsStyle iconPart label : string) : string :=
  nl 12 ++ "<div class=" ++ q "image-page" ++ imagePageStyle ++ ">"
  ++ nl 16 ++ "<button class=" ++ q "back-btn" ++ " aria-label="
  ++ q "返回" ++ " onclick=" ++ Str.dq ++ "window.location.href='"
  ++ backUrl ++ "'" ++ Str.dq ++ ">←</button>"
  ++ nl 16 ++ "<div class=" ++ q "image-scroll" ++ ">"
  ++ nl 20 ++ imagePart
  ++ nl 16 ++ "</div>"
  ++ nl 16 ++ "<div class=" ++ q "image-link-float" ++ ">"
  ++ nl 20 ++ "<a href=" ++ q finalLink ++ " class="
  ++ q "btn-card image-link-btn is-compact" ++ imageButtonVarsStyle
  ++ " target=" ++ q "_blank" ++ " rel=" ++ q "noopener" ++ ">"
  ++ nl 24 ++ "<div class=" ++ q "link-icon" ++ ">↓</div>"
  ++ nl 24 ++ "<div class=" ++ q "link-text" ++ ">"
  ++ nl 28 ++ iconPart
  ++ nl 28 ++ "<span class=" ++ q "text" ++ ">" ++ label ++ "</span>"
  ++ nl 24 ++ "</div>"
  ++ nl 24 ++ "<div class=" ++ q "btn-right" ++ ">›</div>"
  ++ nl 20 ++ "</a>"
  ++ nl 16 ++ "</div>"
  ++ nl 12 ++ "</div>"
  ++ nl 8.

(** [renderImagePage].  The scroll behaviour it installs at the end is
    the subject of [Scroll] below. *)
Definition renderImagePage (pagePath : string) (config : value)
  (imageIndex : number) (queryString : string) : M unit :=
  btns <- lift (get config buttons) ;;
  button <- lift (getIndex btns imageIndex) ;;
  if negb (truthy button) then
    renderError "图片不存在" (imageNotFound imageIndex)
  else
    img <- lift (get button image) ;;
    imageUrl <- lift (getResourcePath pagePath img) ;;
    lnk <- lift (get button link) ;;
    finalLink <- lift (replaceQueryPlaceholder lnk queryString) ;;
    let backUrl :=
      "/" ++ pagePath
      ++ (if Str.isEmpty queryString then "" else "?" ++ queryString) in
    btnText <- lift (get button text) ;;
    ttl <- lift (get config title) ;;
    imageTitle <-
      lift (if truthy btnText
            then bindC (Value.toString btnText) (fun s1 =>
                 bindC (Value.toString (Value.or ttl (VStr pagePath)))
                   (fun s2 => Normal (VStr (s1 ++ " - " ++ s2))))
            else Normal (Value.or ttl (VStr pagePath))) ;;
    dsc <- lift (get config description) ;;
    updatePageMeta imageTitle (Value.or dsc (VStr "")) ;;;
    ensureFont config ;;;
    imageBackgroundColor <-
      lift (getOr config imageBackgroundColor backgroundColor) ;;
    imageButtonBackgroundColor <-
      lift (getOr config imageButtonBackgroundColor buttonBackgroundColor) ;;
    imageButtonTextColor <-
      lift (getOr config imageButtonTextColor buttonTextColor) ;;
    part1 <- lift (if truthy imageBackgroundColor
                   then bindC (Value.toString imageBackgroundColor)
                          (fun s => Normal ["background-color: " ++ s])
                   else Normal []) ;;
    family <- lift (get config fontFamily) ;;
    part2 <- lift (if truthy family
                   then bindC (Value.toString family) (fun s =>
                        Normal ["font-family: " ++ s])
                   else Normal []) ;;
    let imagePageStyle :=
      match (part1 ++ part2)%list with
      | [] => ""
      | parts => " style=" ++ q (Str.join "; " parts)
      end in
    ownBg <- lift (get button backgroundColor) ;;
    let btnBg := Value.coalesce ownBg imageButtonBackgroundColor in
    ownText <- lift (get button textColor) ;;
    let btnTextColor := Value.coalesce ownText imageButtonTextColor in
    imageButtonVarsStyle <- lift (buildStyleVars btnBg btnTextColor) ;;
    imagePart <-
      lift (match imageUrl with
            | Some u =>
                bindC (Value.toString btnText) (fun alt =>
                Normal ("<img src=" ++ q u ++ " alt=" ++ q alt ++ ">"))
            | None => Normal ""
            end) ;;
    ic <- lift (get button icon) ;;
    iconPart <- lift (optionalPart ("<span class=" ++ q "icon" ++ ">")
                        ic "</span>") ;;
    lt <- lift (get button linkText) ;;
    label <- lift (Value.toString
                     (Value.or (Value.or lt btnText) (VStr "前往链接"))) ;;
    modify (setAppHTML
              (detailView imagePageStyle backUrl imagePart finalLink
                 imageButtonVarsStyle iconPart label)).

(** ** The controller: loading and [init] *)

(** What [fetch] answers for an address: no answer at all, or a response
    with its status and its body read as JSON ([None] when the body does
    not parse). *)
Inductive response : Type :=
| NetworkError
| Response (ok : bool) (json : option value).

Record environment : Type :=
  { redirectPath : option string;     (* sessionStorage redirect_path *)
    current : location;
    fetch : string -> response }.

(** The location after [history.replaceState(null, '', path)]. *)
Variable replaceState : location -> string -> completion location.

Definition handleRedirect (env : environment) : completion location :=
  match redirectPath env with
  | Some p =>
      if Str.isEmpty p then Normal (current env)
      else replaceState (current env) p
  | None => Normal (current env)
  end.

Definition loadConfig (env : environment) (pagePath : string)
  : completion value :=
  match fetch env (basePath ++ "/" ++ pagePath ++ "/config.json") with
  | NetworkError => Throw TypeError
  | Response false _ => Throw LoadError
  | Response true None => Throw SyntaxError
  | Response true (Some config) => Normal config
  end.

Definition pageNotFound (pagePath : string) : string :=
  "找不到页面: " ++ pagePath.

(** The body of the [try] block of [init]. *)
Definition loadAndRender (env : environment) (page : string)
  (nav : navigation) : M unit :=
  config <- lift (loadConfig env page) ;;
  match imageIndex nav with
  | Some index => renderImagePage page config index (queryString nav)
  | None => renderButtonsPage page config (queryString nav)
  end.

Definition init (env : environment) : M unit :=
  loc <- lift (handleRedirect env) ;;
  let nav := parseURL loc in
  match pagePath nav with
  | None => renderError "404" "页面不存在"
  | Some page =>
      tryCatch (loadAndRender env page nav)
        (fun error =>
           modify (consoleError error) ;;;
           renderError "页面不存在" (pageNotFound page))
  end.

End Controller.

(** ** The scroll-linked affordance of the image screen

    [setupImageScrollBehavior] keeps one flag, [ticking], and hands
    [updateState] to the browser in two ways: to the next animation frame
    from the scroll and resize listener, and to a timer for the first
    measurement.  The browser's side is the list of callbacks waiting for
    the next frame. *)

Module Scroll.

Definition threshold : Z := 60.

Record viewport : Type :=
  { scrollHeight : Z; scrollY : Z; innerHeight : Z }.

Record state : Type :=
  { ticking : bool;
    frameQueue : nat;         (* updateState callbacks awaiting the frame *)
    isReady : bool;           (* class is-ready of the link button *)
    isCompact : bool }.       (* class is-compact of the link button *)

(** The button as the markup creates it, before any event. *)
Definition initial : state :=
  {| ticking := false; frameQueue := 0;
     isReady := false; isCompact := true |}.

Definition applyState (nearBottom : bool) (s : state) : state :=
  {| ticking := ticking s; frameQueue := frameQueue s;
     isReady := nearBottom; isCompact := negb nearBottom |}.

Definition updateState (v : viewport) (s : state) : state :=
  let distanceToBottom := (scrollHeight v - (scrollY v + innerHeight v))%Z in
  let s' := applyState (distanceToBottom <=? threshold)%Z s in
  {| ticking := false; frameQueue := frameQueue s';
     isReady := isReady s'; isCompact := isCompact s' |}.

Definition onScroll (s : state) : state :=
  if ticking s then s
  else {| ticking := true; frameQueue := S (frameQueue s);
          isReady := isReady s; isCompact := isCompact s |}.

(** What happens to the page: a raw scroll or resize event, an animation
    frame (every callback that waits runs), the timer of the first
    measurement. *)
Inductive event : Type :=
| ScrollEvent
| ResizeEvent
| AnimationFrame (v : viewport)
| InitialTimer (v : viewport).

Fixpoint runCallbacks (n : nat) (v : viewport) (s : state) : state :=
  match n with
  | O => s
  | S k => runCallbacks k v (updateState v s)
  end.

Definition step (s : state) (e : event) : state :=
  match e with
  | ScrollEvent | ResizeEvent => onScroll s
  | AnimationFrame v =>
      runCallbacks (frameQueue s) v
        {| ticking := ticking s; frameQueue := 0;
           isReady := isReady s; isCompact := isCompact s |}
  | InitialTimer v => updateState v s
  end.

Definition run (s : state) (events : list event) : state :=
  fold_left step events s.

Definition isRaw (e : event) : bool :=
  match e with
  | ScrollEvent | ResizeEvent | AnimationFrame _ => true
  | InitialTimer _ => false
  end.

End Scroll.

(** * Vocabulary of the properties *)

(** The substitutions of the pairs of a query string whose keys hold no
    syntax character: one literal replacement after the other. *)
Definition substitutePairs (params : list (string * string)) (s : string)
  : string :=
  fold_left (fun r kv => Replace.replaceAll ("{" ++ fst kv ++ "}") (snd kv) r)
    params s.

Definition plainKeys (params : list (string * string)) : bool :=
  forallb (fun kv => RegExp.plain (fst kv)) params.

Fixpoint literalScan (needle value_ : string) (skip : nat) (s : string)
  : string :=
  match s with
  | "" => ""
  | String c r =>
      match skip with
      | S k => literalScan needle value_ k r
      | O =>
          if Str.startsWith needle s
          then value_ ++ literalScan needle value_ (String.length needle - 1) r
          else String c (literalScan needle value_ 0 r)
      end
  end.

Definition literalReplace (needle value_ s : string) : string :=
  literalScan needle value_ 0 s.

Definition noDollar (s : string) : bool :=
  negb (Str.any (fun c => Ascii.eqb c "$") s).

(** The pairs substituted one after the other, each on the result of the
    one before. *)
Definition literalPairs (params : list (string * string)) (s : string)
  : string :=
  fold_left (fun r kv => literalReplace ("{" ++ fst kv ++ "}") (snd kv) r)
    params s.

(** Keys without syntax characters, values without dollars. *)
Definition tame (params : list (string * string)) : bool :=
  forallb (fun kv => RegExp.plain (fst kv) && noDollar (snd kv)) params.

(** A link without a brace pair: no opening brace with a closing brace
    somewhere after it. *)
Fixpoint hasToken (s : string) : bool :=
  match s with
  | "" => false
  | String c r =>
      (Ascii.eqb c "{" && Str.any (fun x => Ascii.eqb x "}") r) || hasToken r
  end.

Definition noSlash (s : string) : bool :=
  Str.all (fun c => negb (isSlash c)) s.

(** A page name: one non-empty path segment other than [index.html]. *)
Definition validSegment (seg : string) : bool :=
  negb (Str.isEmpty seg) && noSlash seg && negb (String.eqb seg "index.html").

Definition digitString (d : string) : bool :=
  negb (Str.isEmpty d) && Str.all isDigit d.

(** The document after [renderError]. *)
Definition errorShown (title message : string) (d : document) : document :=
  {| docTitle := if Str.isEmpty title then docTitle d else title;
     metaDescription := match metaDescription d with
                        | Some _ => Some message
                        | None => None
                        end;
     headLinks := headLinks d;
     bodyLinks := bodyLinks d;
     appHTML := errorView title message;
     console := console d |}.

(** A page that has not been rendered yet, with a description element. *)
Definition blankDocument : document :=
  {| docTitle := ""; metaDescription := Some ""; headLinks := [];
     bodyLinks := []; appHTML := ""; console := [] |}.

(** A browser in which the addresses of the examples resolve to
    themselves and the redirect leaves the location as it is. *)
Definition resolveSame (address : string) : string := address.

Definition stay (loc : location) (path : string) : completion location :=
  Normal loc.

Definition serve (loc : location) (config : value) : environment :=
  {| redirectPath := None; current := loc;
     fetch := fun _ => Response true (Some config) |}.

Definition fontLinkCount (d : document) : nat :=
  List.length (filter customFont (headLinks d ++ bodyLinks d)%list).

Definition sameAddress (resolveURL : string -> string) (l : linkElement)
  (fontUrl : value) : bool :=
  match fontUrl with
  | VStr f => String.eqb (hrefOf resolveURL l) f
  | _ => false
  end.

(** The link [ensureFont] works on, and the document that holds it. *)
Definition fontLinkOf (d : document) : linkElement :=
  match customFontLink d with
  | Some l => l
  | None => newFontLink
  end.

Definition withFontLink (d : document) : document :=
  match customFontLink d with
  | Some _ => d
  | None => appendToHead newFontLink d
  end.

Definition googleFonts (familyName : string) : string :=
  "https://fonts.googleapis.com/css2?family="
  ++ URI.encodeURIComponent familyName
  ++ ":wght@400;500;600;700&display=swap".

Definition safeC {A} (c : completion A) : Prop :=
  c = Throw TypeError \/ exists a, c = Normal a.

(** A step that leaves the markup alone and throws at most a TypeError,
    and a step that throws one for sure. *)
Definition keeps {A} (m : M A) : Prop :=
  forall d, exists d',
    appHTML d' = appHTML d
    /\ (m d = (Throw TypeError, d') \/ exists a, m d = (Normal a, d')).

Definition throws {A} (m : M A) : Prop :=
  forall d, exists d',
    m d = (Throw TypeError, d') /\ appHTML d' = appHTML d.

(** Induction on a value that reaches the elements of its arrays. *)
Section ValueInduction.

Variable P : value -> Prop.
Hypothesis Hundefined : P VUndefined.
Hypothesis Hnull : P VNull.
Hypothesis Hbool : forall b, P (VBool b).
Hypothesis Hnum : forall i, P (VNum i).
Hypothesis Hstr : forall s, P (VStr s).
Hypothesis Harr : forall elems, Forall P elems -> P (VArr elems).
Hypothesis Hobj : forall fields, P (VObj fields).
Hypothesis Hnative : forall name, P (VNative name).

Fixpoint value_elems_ind (v : value) : P v :=
  match v with
  | VUndefined => Hundefined
  | VNull => Hnull
  | VBool b => Hbool b
  | VNum i => Hnum i
  | VStr s => Hstr s
  | VArr elems =>
      Harr elems
        ((fix all (l : list value) : Forall P l :=
            match l with
            | [] => Forall_nil P
            | e :: r => Forall_cons e (value_elems_ind e) (all r)
            end) elems)
  | VObj fields => Hobj fields
  | VNative name => Hnative name
  end.

End ValueInduction.

Module ScrollSpec.

Import Scroll.

(** The browser dispatches scroll and resize events and runs the frame
    callbacks within one rendering update, so the timer of the first
    measurement fires only while no callback waits for a frame. *)
Fixpoint admissible (s : state) (events : list event) : bool :=
  match events with
  | [] => true
  | e :: r =>
      match e with
      | InitialTimer _ => frameQueue s =? 0
      | _ => true
      end && admissible (step s e) r
  end.

(** Either a recomputation waits and scheduling is off, or none waits and
    scheduling is on. *)
Definition coalesced (s : state) : Prop :=
  (ticking s = true /\ frameQueue s = 1)
  \/ (ticking s = false /\ frameQueue s = 0).

(** A raw event that asks for a recomputation. *)
Definition isTrigger (e : event) : bool :=
  match e with
  | ScrollEvent | ResizeEvent => true
  | _ => false
  end.

(** The viewport is within the threshold of the bottom of the page. *)
Definition nearBottom (v : viewport) : bool :=
  (scrollHeight v - (scrollY v + innerHeight v) <=? threshold)%Z.

End ScrollSpec.

(** ** Navigation targets

    The address a card of the list screen assigns to [window.location.href]
    when it is activated ([idx] is the card's [data-index]), and the
    address behind the back control of the detail screen. *)

Definition cardTarget (pagePath idx queryString : string) : string :=
  "/" ++ pagePath ++ "/image/" ++ idx
  ++ (if Str.isEmpty queryString then "" else "?" ++ queryString).

Definition backUrlOf (pagePath queryString : string) : string :=
  "/" ++ pagePath
  ++ (if Str.isEmpty queryString then "" else "?" ++ queryString).

(** The search component that carries a query string. *)
Definition searchOf (queryString : string) : string :=
  if Str.isEmpty queryString then "" else "?" ++ queryString.

(** An index past the end of an array of buttons. *)
Definition pastEnd (elems : list value) (index : number) : Prop :=
  match index with
  | Finite z => (Z.of_nat (List.length elems) <= z)%Z
  | Infinity => True
  end.

(** ** Characters of a query string *)

(** [x] does not occur in [s]. *)
Definition noChar (x : ascii) (s : string) : bool :=
  negb (Str.any (fun c => Ascii.eqb c x) s).

Definition isAscii (c : ascii) : bool := nat_of_ascii c <=? 127.

(** No pair of the parameters has a placeholder in [s]. *)
Definition noPlaceholderFor (params : list (string * string)) (s : string)
  : bool :=
  forallb (fun kv => negb (Str.occurs ("{" ++ fst kv ++ "}") s)) params.

(** A character that is none of [+], [&] and [$]. *)
Definition clean (c : ascii) : bool := negb (Str.any (Ascii.eqb c) "+&$").

(** A value that is no string. *)
Definition notString (v : value) : Prop :=
  match v with
  | VStr _ => False
  | _ => True
  end.

(** The links of a document that are not the custom font link. *)
Definition otherLinks (d : document) : list linkElement :=
  filter (fun l => negb (customFont l)) (headLinks d ++ bodyLinks d)%list.


(** ** Placeholders in a link *)





(** ** Configurations as the format describes them

    The fields a screen reads are strings or absent; [field] is the value
    of a field of an object, [undefined] when the object has none. *)

Definition field (fields : list (string * value)) (p : prop) : value :=
  match lookup (prop_name p) fields with
  | Some x => x
  | None => VUndefined
  end.

Definition isTextual (v : value) : bool :=
  match v with
  | VUndefined | VStr _ => true
  | _ => false
  end.

(** The text a template shows for a string or for [undefined]. *)
Definition textOf (v : value) : string :=
  match v with
  | VStr s => s
  | _ => "undefined"
  end.

Definition textualFields (fields : list (string * value)) (ps : list prop)
  : bool :=
  forallb (fun p => isTextual (field fields p)) ps.

Definition pageProps : list prop :=
  [fontUrl; fontFamily; background; logo; title; description;
   backgroundColor; pageBackgroundColor; imageBackgroundColor;
   buttonBackgroundColor; pageButtonBackgroundColor;
   imageButtonBackgroundColor;
   buttonTextColor; pageButtonTextColor; imageButtonTextColor].

Definition buttonProps : list prop :=
  [backgroundColor; textColor; icon; text; subtitle; image; linkText].

Definition textualButton (btn : value) : bool :=
  match btn with
  | VObj f => textualFields f buttonProps
  | _ => false
  end.

(** Colour resolution in the words of the specification: the colour of the
    button itself when it has one, else the colour of the screen, else the
    colour of the page. *)
Definition layered (own screen page : value) : value :=
  if nullish own then (if truthy screen then screen else page) else own.

(** The inline style of a button: one variable per colour that resolved to
    something, and no attribute at all when neither did. *)
Definition styleAttr (bg tx : value) : string :=
  match truthy bg, truthy tx with
  | true, true =>
      " style=" ++ q ("--btn-bg: " ++ textOf bg ++ "; "
                      ++ "--btn-text: " ++ textOf tx)
  | true, false => " style=" ++ q ("--btn-bg: " ++ textOf bg)
  | false, true => " style=" ++ q ("--btn-text: " ++ textOf tx)
  | false, false => ""
  end.

Definition optionalText (opening : string) (v : value) (closing : string)
  : string :=
  if truthy v then opening ++ textOf v ++ closing else "".

(** The card of a button of the list screen, with its colours resolved. *)
Definition expectedCard (cf : list (string * value)) (btn : value) (i : nat)
  : string :=
  match btn with
  | VObj f =>
      cardView (Number.decimal (Z.of_nat i))
        (styleAttr
           (layered (field f backgroundColor)
              (field cf pageButtonBackgroundColor)
              (field cf buttonBackgroundColor))
           (layered (field f textColor)
              (field cf pageButtonTextColor) (field cf buttonTextColor)))
        (optionalText ("<div class=" ++ q "icon" ++ ">") (field f icon)
           "</div>")
        (textOf (field f text))
        (optionalText ("<div class=" ++ q "subtitle" ++ ">")
           (field f subtitle) "</div>")
  | _ => ""
  end.

Fixpoint expectedCards (cf : list (string * value)) (i : nat)
  (elems : list value) : list string :=
  match elems with
  | [] => []
  | e :: r => expectedCard cf e i :: expectedCards cf (S i) r
  end.

Definition resourcePath (pagePath : string) (v : value) : option string :=
  match v with
  | VStr r =>
      if Str.isEmpty r then None
      else if Str.startsWith "http" r then Some r
      else Some (basePath ++ "/" ++ pagePath ++ "/" ++ r)
  | _ => None
  end.


(** * Properties *)

(** ** Strings and patterns *)

Lemma string_length_app (a b : string) :
  String.length (a ++ b) = String.length a + String.length b.
Proof. induction a as [|c a IH]; simpl; [reflexivity | now rewrite IH]. Qed.

Lemma stripSuffix_app (key suf : string) :
  suf <> "" -> RegExp.stripSuffix suf (key ++ suf) = Some key.
Proof.
  intros Hsuf. induction key as [|c key IH]; cbn [append].
  - destruct suf as [|a suf]; [congruence|].
    cbn [RegExp.stripSuffix]. now rewrite String.eqb_refl.
  - cbn [RegExp.stripSuffix].
    destruct (String.eqb_spec (String c (key ++ suf)) suf) as [E|_].
    + apply (f_equal String.length) in E. simpl in E.
      rewrite string_length_app in E. lia.
    + now rewrite IH.
Qed.

Lemma RegExp_new_placeholder (key : string) :
  RegExp.new ("\{" ++ key ++ "\}") = RegExp.compileBody key.
Proof.
  unfold RegExp.new.
  replace (RegExp.stripPrefix "\{" ("\{" ++ key ++ "\}"))
    with (Some (key ++ "\}")) by reflexivity.
  rewrite stripSuffix_app; [reflexivity | discriminate].
Qed.

Lemma RegExp_new_plain (key : string) :
  RegExp.plain key = true ->
  RegExp.new ("\{" ++ key ++ "\}") = Normal ("{" ++ key ++ "}").
Proof.
  intros H. rewrite RegExp_new_placeholder. unfold RegExp.compileBody.
  now rewrite H.
Qed.

(** A pattern that does not occur leaves the subject as it is. *)
Lemma scan_absent (needle template : string) :
  forall s before,
    Str.occurs needle s = false ->
    Replace.scan needle template before 0 s = s.
Proof.
  induction s as [|c s IH]; intros before H; [reflexivity|].
  simpl in H. apply orb_false_iff in H. destruct H as [Hp Ho].
  cbn [Replace.scan]. rewrite Hp. now rewrite IH.
Qed.

Lemma replaceAll_absent (needle template s : string) :
  Str.occurs needle s = false -> Replace.replaceAll needle template s = s.
Proof. apply scan_absent. Qed.

Lemma forEachParam_plain (params : list (string * string)) :
  forall result,
    plainKeys params = true ->
    forEachParam params result = Normal (substitutePairs params result).
Proof.
  induction params as [|[k v] rest IH]; intros result H; [reflexivity|].
  simpl in H. apply andb_true_iff in H. destruct H as [Hk Hr].
  cbn [forEachParam]. rewrite (RegExp_new_plain k Hk). cbn [bindC].
  now rewrite IH.
Qed.

(** ** Literal replacement

    What the comments of [replaceQueryPlaceholder] describe: every
    occurrence of the placeholder, from left to right, gives way to the
    value as it is. *)

Lemma getSubstitution_noDollar (matched before after : string) :
  forall template,
    noDollar template = true ->
    Replace.getSubstitution matched before after template = template.
Proof.
  unfold noDollar. induction template as [|c t IH]; intros H; [reflexivity|].
  cbn [Str.any] in H. apply negb_true_iff, orb_false_iff in H.
  destruct H as [Hc Ht]. cbn [Replace.getSubstitution]. rewrite Hc.
  f_equal. apply IH. now rewrite Ht.
Qed.

Lemma scan_noDollar (needle template : string) :
  noDollar template = true ->
  forall s before skip,
    Replace.scan needle template before skip s
    = literalScan needle template skip s.
Proof.
  intros H. induction s as [|c s IH]; intros before skip; [reflexivity|].
  cbn [Replace.scan literalScan]. destruct skip as [|k].
  - destruct (Str.startsWith needle (String c s)).
    + now rewrite getSubstitution_noDollar, IH.
    + now rewrite IH.
  - apply IH.
Qed.

Lemma replaceAll_noDollar (needle template s : string) :
  noDollar template = true ->
  Replace.replaceAll needle template s = literalReplace needle template s.
Proof. intros H. now apply scan_noDollar. Qed.

Lemma literalReplace_absent (needle value_ s : string) :
  Str.occurs needle s = false -> literalReplace needle value_ s = s.
Proof.
  unfold literalReplace. induction s as [|c s IH]; intros H; [reflexivity|].
  cbn [Str.occurs] in H. apply orb_false_iff in H. destruct H as [Hp Ho].
  cbn [literalScan]. rewrite Hp. now rewrite IH.
Qed.

Lemma forEachParam_tame (params : list (string * string)) :
  forall result,
    tame params = true ->
    forEachParam params result = Normal (literalPairs params result).
Proof.
  induction params as [|[k v] rest IH]; intros result H; [reflexivity|].
  cbn [tame forallb fst snd] in H.
  apply andb_true_iff in H. destruct H as [Hkv Hr].
  apply andb_true_iff in Hkv. destruct Hkv as [Hk Hv].
  cbn [forEachParam]. rewrite (RegExp_new_plain k Hk). cbn [bindC].
  rewrite (replaceAll_noDollar _ _ _ Hv). now rewrite IH.
Qed.

Lemma replaceQueryPlaceholder_tame (u q : string) :
  noDollar q = true ->
  tame (URLSearchParams.new q) = true ->
  replaceQueryPlaceholder (VStr u) q
  = Normal (literalPairs (URLSearchParams.new q)
              (literalReplace "{query}" q u)).
Proof.
  intros Hq Ht. unfold replaceQueryPlaceholder.
  rewrite (replaceAll_noDollar _ _ _ Hq).
  destruct q as [|c q]; [reflexivity|].
  cbn [Str.isEmpty]. now apply forEachParam_tame.
Qed.

Lemma startsWith_any (x : ascii) (a b : string) :
  forall s,
    Str.startsWith (a ++ String x b) s = true ->
    Str.any (fun c => Ascii.eqb c x) s = true.
Proof.
  induction a as [|c a IH]; intros [|d s] H; cbn in H; try discriminate.
  - apply andb_true_iff in H. destruct H as [H _].
    apply Ascii.eqb_eq in H. subst d. cbn. now rewrite Ascii.eqb_refl.
  - apply andb_true_iff in H. destruct H as [_ H].
    cbn. rewrite (IH s H). apply orb_true_r.
Qed.

Lemma no_token_no_placeholder (key : string) :
  forall s, hasToken s = false -> Str.occurs ("{" ++ key ++ "}") s = false.
Proof.
  induction s as [|c s IH]; intros H.
  - reflexivity.
  - cbn [hasToken] in H. apply orb_false_iff in H. destruct H as [Hc Hs].
    cbn [Str.occurs]. rewrite (IH Hs), orb_false_r.
    cbn [append Str.startsWith].
    destruct (Ascii.eqb "{" c) eqn:E; [|reflexivity].
    apply Ascii.eqb_eq in E. subst c. cbn in Hc.
    destruct (Str.startsWith (key ++ "}") s) eqn:P; [|reflexivity].
    apply startsWith_any in P. congruence.
Qed.

Lemma substitutePairs_no_token (params : list (string * string)) (s : string) :
  hasToken s = false -> substitutePairs params s = s.
Proof.
  intros H. induction params as [|[k v] rest IH]; [reflexivity|].
  cbn [substitutePairs fold_left fst snd].
  rewrite replaceAll_absent by now apply no_token_no_placeholder.
  exact IH.
Qed.

(** X9: a link without a brace pair is returned as it is when no key of the
    query string holds a syntax character. *)
Lemma replaceQueryPlaceholder_no_token (u q : string) :
  hasToken u = false ->
  plainKeys (URLSearchParams.new q) = true ->
  replaceQueryPlaceholder (VStr u) q = Normal u.
Proof.
  intros Hu Hk. unfold replaceQueryPlaceholder.
  rewrite (replaceAll_absent "{query}" q u)
    by exact (no_token_no_placeholder "query" u Hu).
  destruct (Str.isEmpty q); [reflexivity|].
  rewrite forEachParam_plain by assumption.
  now rewrite substitutePairs_no_token.
Qed.

(** ** Placeholder substitution *)

(** A repeated key: the pairs after the first find nothing to replace once
    the first has been substituted. *)
Lemma forEachParam_same_key (k : string) (rest : list (string * string)) :
  forall r,
    RegExp.plain k = true ->
    forallb (fun kv => String.eqb (fst kv) k) rest = true ->
    Str.occurs ("{" ++ k ++ "}") r = false ->
    forEachParam rest r = Normal r.
Proof.
  induction rest as [|[k' v] rest IH]; intros r Hk Hall Ho; [reflexivity|].
  cbn [forallb fst] in Hall. apply andb_true_iff in Hall.
  destruct Hall as [E Hall]. apply String.eqb_eq in E. subst k'.
  cbn [forEachParam]. rewrite (RegExp_new_plain k Hk). cbn [bindC].
  rewrite (replaceAll_absent _ _ _ Ho). now apply IH.
Qed.


(** C5, as the code has it: [{query}] is replaced first, by the raw query
    string; then the pairs are substituted in the order of the query
    string, each on the result of the one before it (for keys free of
    syntax characters, the query string and the values free of dollars).
    A pair named [query] is one of these pairs, and what a value brings in
    is open to the pairs that follow. *)
Theorem C5_query_first_then_pairs_in_order (u q : string) :
  noDollar q = true ->
  tame (URLSearchParams.new q) = true ->
  replaceQueryPlaceholder (VStr u) q
  = Normal (literalPairs (URLSearchParams.new q)
              (literalReplace "{query}" q u)).
Proof. exact (replaceQueryPlaceholder_tame u q). Qed.

Lemma C5_query_first_then_pairs_in_order_witness :
  replaceQueryPlaceholder (VStr "u?{query}#{query}{b}") "query=1&b=2"
  = Normal "u?query=1&b=2#query=1&b=22".
Proof.
  exact (C5_query_first_then_pairs_in_order "u?{query}#{query}{b}"
           "query=1&b=2" eq_refl eq_refl).
Defined.

(** C5 as stated fails: the value [{b}] of [a] is expanded again by the
    pair [b] that follows; a [{query}] that the query string itself brings
    in is expanded by a key named [query]; and a query string with [$&] is
    not inserted as it is. *)
Lemma C5_reexpansion_counterexample :
  replaceQueryPlaceholder (VStr "{a}") "a={b}&b=2" = Normal "2"
  /\ replaceQueryPlaceholder (VStr "{query}") "query=1&x={query}"
     = Normal "query=1&x=1"
  /\ replaceQueryPlaceholder (VStr "{query}") "a=$&b=1"
     = Normal "a={query}b=1".
Proof. repeat split; reflexivity. Qed.

(** C6 at its failing input: the link [abc] holds no placeholder, the key
    of the query string [(=1] is an opening parenthesis, and the pattern
    built from it does not compile. *)
Theorem C6_unpaired_parenthesis_faults :
  hasToken "abc" = false
  /\ URLSearchParams.new "(=1" = [("(", "1")]
  /\ replaceQueryPlaceholder (VStr "abc") "(=1" = Throw SyntaxError.
Proof. repeat split; reflexivity. Qed.

(** ** The location parser *)

Lemma startsWith_app (p r : string) : Str.startsWith p (p ++ r) = true.
Proof.
  induction p as [|c p IH]; [reflexivity|].
  cbn. now rewrite Ascii.eqb_refl, IH.
Qed.

Lemma drop_app (p r : string) : Str.drop (String.length p) (p ++ r) = r.
Proof. induction p as [|c p IH]; [now destruct r | exact IH]. Qed.

Lemma startsWith_split (p : string) :
  forall s, Str.startsWith p s = true -> s = p ++ Str.drop (String.length p) s.
Proof.
  induction p as [|c p IH]; intros s H.
  - now destruct s.
  - destruct s as [|d s]; [discriminate|].
    cbn in H. apply andb_true_iff in H. destruct H as [E H].
    apply Ascii.eqb_eq in E. subst d. cbn. f_equal. now apply IH.
Qed.

Lemma stripPrefix_app (p r : string) : RegExp.stripPrefix p (p ++ r) = Some r.
Proof.
  unfold RegExp.stripPrefix. now rewrite startsWith_app, drop_app.
Qed.

Lemma stripPrefix_spec (p s r : string) :
  RegExp.stripPrefix p s = Some r -> s = p ++ r.
Proof.
  unfold RegExp.stripPrefix. destruct (Str.startsWith p s) eqn:E; [|discriminate].
  intros H. injection H as <-. now apply startsWith_split.
Qed.

Lemma segment_spec :
  forall s a b,
    segment s = (a, b) ->
    s = a ++ b /\ noSlash a = true
    /\ (b = "" \/ exists r, b = String "/" r).
Proof.
  induction s as [|c s IH]; intros a b H; cbn in H.
  - injection H as <- <-. repeat split. now left.
  - destruct (isSlash c) eqn:E.
    + injection H as <- <-. repeat split. right. exists s.
      unfold isSlash in E. apply Ascii.eqb_eq in E. now subst c.
    + destruct (segment s) as [a' b'] eqn:S. injection H as <- <-.
      destruct (IH a' b' eq_refl) as (-> & Ha & Hb).
      repeat split; [|exact Hb]. unfold noSlash in *. cbn. now rewrite E.
Qed.

Lemma segment_app (seg tail : string) :
  noSlash seg = true ->
  tail = "" \/ (exists r, tail = String "/" r) ->
  segment (seg ++ tail) = (seg, tail).
Proof.
  intros Hs Ht. induction seg as [|c seg IH]; cbn.
  - destruct Ht as [-> | [r ->]]; reflexivity.
  - unfold noSlash in Hs. cbn in Hs. apply andb_true_iff in Hs.
    destruct Hs as [Hc Hs]. apply negb_true_iff in Hc. rewrite Hc.
    now rewrite (IH Hs).
Qed.

Lemma validSegment_parts (seg : string) :
  validSegment seg = true ->
  Str.isEmpty seg = false /\ noSlash seg = true
  /\ String.eqb seg "index.html" = false.
Proof.
  unfold validSegment. intros H.
  apply andb_true_iff in H. destruct H as [H H3].
  apply andb_true_iff in H. destruct H as [H1 H2].
  apply negb_true_iff in H1, H3. auto.
Qed.

Lemma matchPath_page (seg : string) :
  Str.isEmpty seg = false -> noSlash seg = true ->
  matchPath ("/" ++ seg) = Some (seg, None).
Proof.
  intros H1 H2. cbn.
  replace seg with (seg ++ "") at 1 by (clear; induction seg; cbn; congruence).
  rewrite (segment_app seg "" H2) by now left. now rewrite H1.
Qed.

Lemma matchPath_image (seg d : string) :
  Str.isEmpty seg = false -> noSlash seg = true -> digitString d = true ->
  matchPath ("/" ++ seg ++ "/image/" ++ d) = Some (seg, Some d).
Proof.
  intros H1 H2 H3.
  change ("/" ++ seg ++ "/image/" ++ d)
    with (String "/" (seg ++ "/image/" ++ d)).
  unfold matchPath. replace (isSlash "/") with true by reflexivity.
  rewrite (segment_app seg ("/image/" ++ d) H2) by (right; eexists; reflexivity).
  rewrite H1. replace (Str.isEmpty ("/image/" ++ d)) with false by reflexivity.
  rewrite stripPrefix_app. unfold digitString in H3. now rewrite H3.
Qed.

Lemma matchPath_spec (path seg : string) (m : option string) :
  matchPath path = Some (seg, m) ->
  Str.isEmpty seg = false /\ noSlash seg = true
  /\ match m with
     | None => path = "/" ++ seg
     | Some d => digitString d = true /\ path = "/" ++ seg ++ "/image/" ++ d
     end.
Proof.
  destruct path as [|c rest]; [discriminate|]. cbn [matchPath].
  destruct (isSlash c) eqn:Ec; [|discriminate].
  unfold isSlash in Ec. apply Ascii.eqb_eq in Ec. subst c.
  destruct (segment rest) as [a b] eqn:S.
  destruct (segment_spec _ _ _ S) as (-> & Ha & Hb).
  destruct (Str.isEmpty a) eqn:Ea; [discriminate|].
  destruct (Str.isEmpty b) eqn:Eb.
  - intros H. injection H as <- <-. destruct b; [|discriminate].
    repeat split; try assumption.
    cbn. f_equal. clear. induction a; cbn; congruence.
  - destruct (RegExp.stripPrefix "/image/" b) as [d|] eqn:P; [|discriminate].
    destruct (negb (Str.isEmpty d) && Str.all isDigit d) eqn:D; [|discriminate].
    intros H. injection H as <- <-.
    apply stripPrefix_spec in P. subst b.
    repeat split; assumption.
Qed.

Lemma roundToDouble_exact (z : Z) :
  (z < 2 ^ 53)%Z -> roundToDouble z = Finite z.
Proof.
  intros H. unfold roundToDouble.
  destruct (Z.ltb_spec z (2 ^ 53)) as [_|N]; [reflexivity | lia].
Qed.

(** C2, as the code has it: [parseURL] recognizes exactly the two shapes
    [/{segment}] and [/{segment}/image/{digits}], the segment other than
    [index.html]; every other path gives no page; the index of the image
    form is the Number [parseInt] gives for the digits, which is their
    base-10 value when that value is below [2^53] and the nearest double
    otherwise; the query string is the search component without its first
    character, the empty string when there is none. *)
Theorem C2_parseURL_shapes :
  (forall loc, queryString (parseURL loc) = Str.slice1 (search loc))
  /\ (forall path,
        queryString (parseURL {| pathname := path; search := "" |}) = "")
  /\ (forall path qs,
        queryString (parseURL {| pathname := path; search := "?" ++ qs |})
        = qs)
  /\ (forall seg s,
        validSegment seg = true ->
        parseURL {| pathname := "/" ++ seg; search := s |}
        = {| pagePath := Some seg; imageIndex := None;
             queryString := Str.slice1 s |})
  /\ (forall seg d s,
        validSegment seg = true -> digitString d = true ->
        parseURL {| pathname := "/" ++ seg ++ "/image/" ++ d; search := s |}
        = {| pagePath := Some seg;
             imageIndex := Some (roundToDouble (decimalValue 0 d));
             queryString := Str.slice1 s |})
  /\ (forall d,
        (decimalValue 0 d < 2 ^ 53)%Z ->
        parseInt d = Finite (decimalValue 0 d))
  /\ (forall loc seg,
        pagePath (parseURL loc) = Some seg ->
        validSegment seg = true
        /\ ((pathname loc = "/" ++ seg /\ imageIndex (parseURL loc) = None)
            \/ exists d,
                 digitString d = true
                 /\ pathname loc = "/" ++ seg ++ "/image/" ++ d
                 /\ imageIndex (parseURL loc) = Some (parseInt d)))
  /\ (forall loc,
        pagePath (parseURL loc) = None -> imageIndex (parseURL loc) = None).
Proof.
  split; [|split; [|split; [|split; [|split; [|split; [|split]]]]]].
  - intros loc. unfold parseURL.
    destruct (matchPath (pathname loc)) as [[m1 m2]|]; [|reflexivity].
    now destruct (String.eqb m1 "index.html").
  - intros path. unfold parseURL. cbn [pathname search].
    destruct (matchPath path) as [[m1 m2]|]; [|reflexivity].
    now destruct (String.eqb m1 "index.html").
  - intros path qs. unfold parseURL. cbn [pathname search].
    destruct (matchPath path) as [[m1 m2]|]; [|reflexivity].
    now destruct (String.eqb m1 "index.html").
  - intros seg s H. destruct (validSegment_parts seg H) as (H1 & H2 & H3).
    unfold parseURL. cbn [pathname search].
    now rewrite (matchPath_page seg H1 H2), H3.
  - intros seg d s H Hd. destruct (validSegment_parts seg H) as (H1 & H2 & H3).
    unfold parseURL. cbn [pathname search].
    now rewrite (matchPath_image seg d H1 H2 Hd), H3.
  - intros d H. now apply roundToDouble_exact.
  - intros loc seg. unfold parseURL.
    destruct (matchPath (pathname loc)) as [[m1 m2]|] eqn:M;
      [|discriminate].
    destruct (String.eqb m1 "index.html") eqn:E; [discriminate|].
    cbn [pagePath imageIndex]. intros H. injection H as ->.
    destruct (matchPath_spec _ _ _ M) as (H1 & H2 & H3).
    split.
    + unfold validSegment. now rewrite H1, H2, E.
    + destruct m2 as [d|].
      * right. exists d. destruct H3 as [Hd Hp]. auto.
      * left. auto.
  - intros loc. unfold parseURL.
    destruct (matchPath (pathname loc)) as [[m1 m2]|]; [|reflexivity].
    destruct (String.eqb m1 "index.html"); [reflexivity | discriminate].
Qed.

Lemma C2_parseURL_shapes_witness :
  parseURL {| pathname := "/demo/image/07"; search := "?ref=abc" |}
  = {| pagePath := Some "demo"; imageIndex := Some (Finite 7);
       queryString := "ref=abc" |}
  /\ parseInt "07" = Finite 7
  /\ validSegment "demo" = true.
Proof.
  destruct C2_parseURL_shapes as (_ & _ & _ & _ & Himg & Hint & Hconv & _).
  split; [|split].
  - exact (Himg "demo" "07" "?ref=abc" eq_refl eq_refl).
  - apply (Hint "07"). vm_compute. reflexivity.
  - exact (proj1 (Hconv {| pathname := "/demo"; search := "" |} "demo"
                    eq_refl)).
Defined.

(** C2 as stated fails on the index: the digits [9007199254740993] write
    an integer that no double holds, and the index is its neighbour. *)
Lemma C2_large_index_counterexample :
  decimalValue 0 "9007199254740993" = 9007199254740993%Z
  /\ imageIndex
       (parseURL {| pathname := "/demo/image/9007199254740993";
                    search := "" |})
     = Some (Finite 9007199254740992).
Proof. split; vm_compute; reflexivity. Qed.

(** ** The error view and [init] *)

Section ControllerProperties.

Variable resolveURL : string -> string.
Variable replaceState : location -> string -> completion location.

(** [renderError] does not throw. *)
Lemma renderError_shown (title message : string) (d : document) :
  renderError title message d = (Normal tt, errorShown title message d).
Proof.
  destruct d as [t m hl bl a c].
  destruct title as [|c1 title], message as [|c2 message], m as [m|];
    reflexivity.
Qed.

Lemma imageNotFound_distinct (index : number) (page : string) :
  imageNotFound index <> pageNotFound page
  /\ imageNotFound index <> "页面不存在".
Proof. split; unfold imageNotFound, pageNotFound; cbn; congruence. Qed.

(** C4, as the code has it: when [config.buttons] can be read and holds
    nothing at the index, [renderImagePage] shows the error view titled
    [图片不存在] whose message names the index, a message that differs
    from those of the two page-not-found views; it writes nothing of the
    detail screen, leaves the font links alone and does not throw. *)
Theorem C4_missing_index_error_view
  (page : string) (config btns : value) (index : number) (qs : string)
  (d : document) :
  get config buttons = Normal btns ->
  getIndex btns index = Normal VUndefined ->
  renderImagePage resolveURL page config index qs d
  = (Normal tt, errorShown "图片不存在" (imageNotFound index) d)
  /\ appHTML (errorShown "图片不存在" (imageNotFound index) d)
     = errorView "图片不存在"
         ("找不到索引为 " ++ Number.toString index ++ " 的按钮")
  /\ headLinks (errorShown "图片不存在" (imageNotFound index) d)
     = headLinks d
  /\ imageNotFound index <> pageNotFound page
  /\ imageNotFound index <> "页面不存在".
Proof.
  intros Hb Hi. split; [|split; [reflexivity|split; [reflexivity|]]].
  - unfold renderImagePage, bind, lift. rewrite Hb, Hi. cbn [truthy negb].
    apply renderError_shown.
  - apply imageNotFound_distinct.
Qed.

(** Every way the load can fail, and a configuration that is [null],
    make the body of the [try] block throw. *)
Lemma loadAndRender_throws (env : environment) (page : string)
  (nav : navigation) (d : document) :
  let address := basePath ++ "/" ++ page ++ "/config.json" in
  (fetch env address = NetworkError ->
   loadAndRender resolveURL env page nav d = (Throw TypeError, d))
  /\ (forall body, fetch env address = Response false body ->
      loadAndRender resolveURL env page nav d = (Throw LoadError, d))
  /\ (fetch env address = Response true None ->
      loadAndRender resolveURL env page nav d = (Throw SyntaxError, d))
  /\ (fetch env address = Response true (Some VNull) ->
      loadAndRender resolveURL env page nav d = (Throw TypeError, d)).
Proof.
  cbn zeta. unfold loadAndRender, loadConfig, bind, lift.
  repeat split; intros; rewrite H; try reflexivity.
  destruct (imageIndex nav); reflexivity.
Qed.

(** C10: on a recognized route, whatever the body of the [try] block
    throws (a failed load, an unparsable body, a fault of either
    renderer) [init] catches: it logs the error and shows the
    page-not-found view that names the page; and [init] itself never
    ends in an exception. *)
Theorem C10_init_catches_everything
  (env : environment) (loc : location) (page : string) (d : document) :
  handleRedirect replaceState env = Normal loc ->
  pagePath (parseURL loc) = Some page ->
  (forall e d1,
      loadAndRender resolveURL env page (parseURL loc) d = (Throw e, d1) ->
      init resolveURL replaceState env d
      = (Normal tt,
         errorShown "页面不存在" ("找不到页面: " ++ page)
           (consoleError e d1)))
  /\ (forall e d', init resolveURL replaceState env d <> (Throw e, d')).
Proof.
  intros Hr Hp.
  assert (E : init resolveURL replaceState env d
              = tryCatch (loadAndRender resolveURL env page (parseURL loc))
                  (fun error =>
                     modify (consoleError error) ;;;
                     renderError "页面不存在" (pageNotFound page)) d).
  { unfold init, bind at 1, lift. rewrite Hr. cbv beta iota.
    now rewrite Hp. }
  rewrite E. unfold tryCatch. split.
  - intros e d1 H. rewrite H. cbv [bind modify].
    apply renderError_shown.
  - intros e d'.
    destruct (loadAndRender resolveURL env page (parseURL loc) d)
      as [[[]|e1|] d1]; try discriminate.
    cbv [bind modify]. rewrite renderError_shown. discriminate.
Qed.

(** ** Faults of the renderers

    The conversions and property reads of the renderers throw nothing
    but a TypeError, and nothing before the last statement of a renderer
    touches the markup of the page. *)

Lemma safeC_Normal {A} (a : A) : safeC (Normal a).
Proof. right. now exists a. Qed.

Lemma safeC_Throw {A} : safeC (@Throw A TypeError).
Proof. now left. Qed.

Lemma safeC_bindC {A B} (c : completion A) (k : A -> completion B) :
  safeC c -> (forall a, safeC (k a)) -> safeC (bindC c k).
Proof.
  intros [-> | [a ->]] Hk; [apply safeC_Throw | apply Hk].
Qed.

Lemma safeC_get (v : value) (p : prop) : safeC (get v p).
Proof.
  destruct v; cbn; try apply safeC_Normal; try apply safeC_Throw.
  - destruct p; apply safeC_Normal.
  - destruct (lookup (prop_name p) fields); apply safeC_Normal.
Qed.

Lemma safeC_toString (v : value) : safeC (Value.toString v).
Proof.
  induction v as [| |b|i|s|elems IH|fields|name] using value_elems_ind;
    try apply safeC_Normal.
  - destruct b; apply safeC_Normal.
  - cbn [Value.toString].
    induction IH as [|e r He Hr IHr]; [apply safeC_Normal|].
    apply safeC_bindC.
    + destruct (nullish e); [apply safeC_Normal | exact He].
    + intros se. destruct r; [apply safeC_Normal|].
      apply safeC_bindC; [exact IHr | intros; apply safeC_Normal].
  - cbn. destruct (hasOwn "toString" fields);
      [apply safeC_Throw | apply safeC_Normal].
Qed.

Lemma safeC_getOr (v : value) (p1 p2 : prop) : safeC (getOr v p1 p2).
Proof.
  unfold getOr. apply safeC_bindC; [apply safeC_get|].
  intros a. destruct (truthy a); [apply safeC_Normal | apply safeC_get].
Qed.

Lemma safeC_getResourcePath (page : string) (r : value) :
  safeC (getResourcePath page r).
Proof.
  unfold getResourcePath. destruct (negb (truthy r)); [apply safeC_Normal|].
  destruct r; try apply safeC_Throw.
  destruct (Str.startsWith "http" s); apply safeC_Normal.
Qed.

Lemma safeC_optionalPart (a : string) (v : value) (b : string) :
  safeC (optionalPart a v b).
Proof.
  unfold optionalPart. destruct (truthy v); [|apply safeC_Normal].
  apply safeC_bindC; [apply safeC_toString | intros; apply safeC_Normal].
Qed.

Lemma safeC_part (label : string) (v : value) :
  safeC (if truthy v
         then bindC (Value.toString v) (fun s => Normal [label ++ s])
         else Normal []).
Proof.
  destruct (truthy v); [|apply safeC_Normal].
  apply safeC_bindC; [apply safeC_toString | intros; apply safeC_Normal].
Qed.

Lemma safeC_buildStyleVars (bg tx : value) : safeC (buildStyleVars bg tx).
Proof.
  unfold buildStyleVars.
  apply safeC_bindC; [apply safeC_part | intros p1].
  apply safeC_bindC; [apply safeC_part | intros p2].
  destruct (p1 ++ p2)%list; apply safeC_Normal.
Qed.

Lemma safeC_getFontUrl (config : value) : safeC (getFontUrl config).
Proof.
  unfold getFontUrl. apply safeC_bindC; [apply safeC_get | intros url].
  destruct (truthy url); [apply safeC_Normal|].
  apply safeC_bindC; [apply safeC_get | intros family].
  destruct (negb (truthy family)); [apply safeC_Normal|].
  destruct family; try apply safeC_Throw.
  destruct (Str.isEmpty _); apply safeC_Normal.
Qed.

Lemma keeps_lift {A} (c : completion A) : safeC c -> keeps (lift c).
Proof.
  intros [-> | [a ->]] d; exists d; split; auto.
  right. now exists a.
Qed.

Lemma keeps_ret {A} (a : A) : keeps (ret a).
Proof. intros d. exists d. split; [reflexivity|]. right. now exists a. Qed.

Lemma keeps_gets {A} (f : document -> A) : keeps (gets f).
Proof.
  intros d. exists d. split; [reflexivity|]. right. now exists (f d).
Qed.

Lemma keeps_modify (f : document -> document) :
  (forall d, appHTML (f d) = appHTML d) -> keeps (modify f).
Proof.
  intros H d. exists (f d). split; [apply H|]. right. now exists tt.
Qed.

Lemma keeps_bind {A B} (m : M A) (k : A -> M B) :
  keeps m -> (forall a, keeps (k a)) -> keeps (bind m k).
Proof.
  intros Hm Hk d. destruct (Hm d) as (d1 & E1 & [H | [a H]]).
  - exists d1. split; [exact E1|]. left. unfold bind. now rewrite H.
  - destruct (Hk a d1) as (d2 & E2 & H2). exists d2.
    split; [congruence|]. unfold bind. now rewrite H.
Qed.

Lemma throws_bind {A B} (m : M A) (k : A -> M B) :
  keeps m -> (forall a, throws (k a)) -> throws (bind m k).
Proof.
  intros Hm Hk d. destruct (Hm d) as (d1 & E1 & [H | [a H]]).
  - exists d1. split; [|exact E1]. unfold bind. now rewrite H.
  - destruct (Hk a d1) as (d2 & H2 & E2). exists d2.
    split; [|congruence]. unfold bind. now rewrite H.
Qed.

Lemma throws_lift {A} : throws (lift (@Throw A TypeError)).
Proof. intros d. now exists d. Qed.

Lemma throws_bind_lift {A B} (k : A -> M B) :
  throws (bind (lift (@Throw A TypeError)) k).
Proof. intros d. now exists d. Qed.

Lemma throws_bind_normal {A B} (a : A) (k : A -> M B) :
  throws (k a) -> throws (bind (lift (Normal a)) k).
Proof. intros H d. exact (H d). Qed.

Lemma keeps_ensureFont (config : value) : keeps (ensureFont resolveURL config).
Proof.
  unfold ensureFont.
  apply keeps_bind; [apply keeps_lift, safeC_getFontUrl | intros fontUrl].
  destruct (negb (truthy fontUrl)); [apply keeps_ret|].
  apply keeps_bind; [apply keeps_gets | intros found].
  apply keeps_bind.
  - destruct found; [apply keeps_ret|].
    apply keeps_bind; [now apply keeps_modify | intros; apply keeps_ret].
  - intros l. destruct (match fontUrl with VStr f => _ | _ => false end);
      [apply keeps_ret|].
    apply keeps_bind; [apply keeps_lift, safeC_toString | intros a].
    now apply keeps_modify.
Qed.

Lemma keeps_updatePageMeta (t ds : value) : keeps (updatePageMeta t ds).
Proof.
  unfold updatePageMeta. apply keeps_bind.
  - destruct (truthy t); [|apply keeps_ret].
    apply keeps_bind; [apply keeps_lift, safeC_toString | intros a].
    now apply keeps_modify.
  - intros _. apply keeps_bind; [apply keeps_gets | intros meta].
    destruct meta; [|apply keeps_ret].
    apply keeps_bind; [apply keeps_lift, safeC_toString | intros a].
    now apply keeps_modify.
Qed.

(** The list screen of a configuration without [buttons]. *)
Lemma renderButtonsPage_absent_buttons
  (page : string) (config : value) (qs : string) :
  get config buttons = Normal VUndefined ->
  throws (renderButtonsPage resolveURL page config qs).
Proof.
  intros H. unfold renderButtonsPage.
  apply throws_bind; [apply keeps_ensureFont | intros _].
  apply throws_bind; [apply keeps_lift, safeC_get | intros bg].
  apply throws_bind; [apply keeps_lift, safeC_getResourcePath | intros bu].
  apply throws_bind; [apply keeps_lift, safeC_get | intros lg].
  apply throws_bind; [apply keeps_lift, safeC_getResourcePath | intros lu].
  apply throws_bind; [apply keeps_lift, safeC_get | intros ttl].
  apply throws_bind; [apply keeps_lift, safeC_get | intros dsc].
  apply throws_bind; [apply keeps_updatePageMeta | intros _].
  apply throws_bind; [apply keeps_lift, safeC_getOr | intros c1].
  apply throws_bind; [apply keeps_lift, safeC_getOr | intros c2].
  apply throws_bind; [apply keeps_lift, safeC_getOr | intros c3].
  apply throws_bind; [apply keeps_ret | intros p1].
  apply throws_bind; [apply keeps_lift, safeC_part | intros p2].
  apply throws_bind; [apply keeps_lift, safeC_get | intros family].
  apply throws_bind; [apply keeps_lift, safeC_part | intros p3].
  cbv zeta.
  apply throws_bind; [apply keeps_lift, safeC_toString | intros tt_].
  apply throws_bind; [apply keeps_lift, safeC_optionalPart | intros dp].
  rewrite H. apply throws_bind_normal. cbn [buttonCards].
  apply throws_bind_lift.
Qed.

Lemma init_recognized
  (env : environment) (loc : location) (page : string) (d : document) :
  handleRedirect replaceState env = Normal loc ->
  pagePath (parseURL loc) = Some page ->
  init resolveURL replaceState env d
  = tryCatch (loadAndRender resolveURL env page (parseURL loc))
      (fun error =>
         modify (consoleError error) ;;;
         renderError "页面不存在" (pageNotFound page)) d.
Proof.
  intros Hr Hp. unfold init, bind at 1, lift. rewrite Hr. cbv beta iota.
  now rewrite Hp.
Qed.

End ControllerProperties.

(** ** Instances *)

(** C3 as stated fails: without [buttons] the list screen throws, and the
    page shows the page-not-found view, not an empty list. *)
Lemma C3_absent_buttons_counterexample :
  fst (renderButtonsPage resolveSame "demo" (VObj [("title", VStr "Demo")])
         "" blankDocument) = Throw TypeError
  /\ appHTML (snd (init resolveSame stay
                     (serve {| pathname := "/demo"; search := "" |}
                        (VObj [("title", VStr "Demo")]))
                     blankDocument))
     = errorView "页面不存在" "找不到页面: demo".
Proof. split; vm_compute; reflexivity. Qed.

Lemma C4_missing_index_error_view_witness :
  renderImagePage resolveSame "demo"
    (VObj [("buttons", VArr [VObj [("text", VStr "Play")]])])
    (Finite 9) "" blankDocument
  = (Normal tt, errorShown "图片不存在" (imageNotFound (Finite 9))
                  blankDocument).
Proof.
  exact (proj1 (C4_missing_index_error_view resolveSame "demo"
                  (VObj [("buttons", VArr [VObj [("text", VStr "Play")]])])
                  (VArr [VObj [("text", VStr "Play")]])
                  (Finite 9) "" blankDocument eq_refl eq_refl)).
Defined.

(** C4 as stated fails: a configuration without [buttons] has no entry at
    index 0, and the detail screen throws instead of showing its own error
    view. *)
Lemma C4_absent_buttons_counterexample :
  get (VObj [("title", VStr "Demo")]) buttons = Normal VUndefined
  /\ renderImagePage resolveSame "demo" (VObj [("title", VStr "Demo")])
       (Finite 0) "" blankDocument
     = (Throw TypeError, blankDocument).
Proof. split; vm_compute; reflexivity. Qed.

Lemma C10_init_catches_everything_witness :
  init resolveSame stay
    (serve {| pathname := "/demo/image/0"; search := "" |} VNull)
    blankDocument
  = (Normal tt,
     errorShown "页面不存在" ("找不到页面: " ++ "demo")
       (consoleError TypeError blankDocument)).
Proof.
  exact (proj1 (C10_init_catches_everything resolveSame stay
                  (serve {| pathname := "/demo/image/0"; search := "" |}
                     VNull)
                  {| pathname := "/demo/image/0"; search := "" |}
                  "demo" blankDocument eq_refl eq_refl)
           TypeError blankDocument eq_refl).
Defined.

(** ** Fonts *)

Section FontProperties.

Variable resolveURL : string -> string.

Variable g : linkElement -> linkElement.
Hypothesis g_keeps : forall l, customFont (g l) = customFont l.

Lemma find_updateFirst (ls : list linkElement) :
  find customFont (updateFirst g ls) = option_map g (find customFont ls).
Proof.
  induction ls as [|l r IH]; [reflexivity|]. cbn.
  destruct (customFont l) eqn:E; cbn.
  - now rewrite g_keeps, E.
  - now rewrite E.
Qed.

Lemma existsb_updateFirst (ls : list linkElement) :
  existsb customFont (updateFirst g ls) = existsb customFont ls.
Proof.
  induction ls as [|l r IH]; [reflexivity|]. cbn.
  destruct (customFont l) eqn:E; cbn.
  - now rewrite g_keeps, E.
  - now rewrite E, IH.
Qed.

Lemma filter_updateFirst (ls : list linkElement) :
  List.length (filter customFont (updateFirst g ls))
  = List.length (filter customFont ls).
Proof.
  induction ls as [|l r IH]; [reflexivity|]. cbn.
  destruct (customFont l) eqn:E; cbn.
  - now rewrite g_keeps, E.
  - now rewrite E, IH.
Qed.

Lemma length_updateFirst (ls : list linkElement) :
  List.length (updateFirst g ls) = List.length ls.
Proof.
  induction ls as [|l r IH]; [reflexivity|]. cbn.
  destruct (customFont l); cbn; congruence.
Qed.

Lemma updateFirst_twice (ls : list linkElement) :
  (forall l, g (g l) = g l) ->
  updateFirst g (updateFirst g ls) = updateFirst g ls.
Proof.
  intros Hg. induction ls as [|l r IH]; [reflexivity|]. cbn.
  destruct (customFont l) eqn:E; cbn.
  - now rewrite g_keeps, E, Hg.
  - now rewrite E, IH.
Qed.

Lemma find_none_existsb (ls : list linkElement) :
  find customFont ls = None <-> existsb customFont ls = false.
Proof.
  induction ls as [|l r IH]; cbn; [tauto|].
  destruct (customFont l); cbn; [split; discriminate | exact IH].
Qed.

Lemma find_app_links (a b : list linkElement) :
  find customFont (a ++ b)%list
  = match find customFont a with
    | Some l => Some l
    | None => find customFont b
    end.
Proof.
  induction a as [|l r IH]; [reflexivity|]. cbn.
  destruct (customFont l); [reflexivity | exact IH].
Qed.

Lemma customFontLink_update (d : document) :
  customFontLink (updateCustomFontLink g d)
  = option_map g (customFontLink d).
Proof.
  unfold customFontLink, updateCustomFontLink. cbn [headLinks bodyLinks].
  rewrite !find_app_links.
  destruct (existsb customFont (headLinks d)) eqn:E.
  - rewrite find_updateFirst.
    destruct (find customFont (headLinks d)) eqn:F; [reflexivity|].
    apply find_none_existsb in F. congruence.
  - apply find_none_existsb in E. rewrite E. apply find_updateFirst.
Qed.

Lemma update_twice (d : document) :
  (forall l, g (g l) = g l) ->
  updateCustomFontLink g (updateCustomFontLink g d)
  = updateCustomFontLink g d.
Proof.
  intros Hg. unfold updateCustomFontLink.
  cbn [headLinks bodyLinks docTitle metaDescription appHTML console].
  destruct (existsb customFont (headLinks d)) eqn:E.
  - rewrite existsb_updateFirst, E. now rewrite updateFirst_twice.
  - rewrite E. now rewrite updateFirst_twice.
Qed.

Lemma fontLinkCount_update (d : document) :
  fontLinkCount (updateCustomFontLink g d) = fontLinkCount d.
Proof.
  unfold fontLinkCount, updateCustomFontLink. cbn [headLinks bodyLinks].
  rewrite !filter_app, !List.length_app.
  destruct (existsb customFont (headLinks d));
    now rewrite filter_updateFirst.
Qed.

End FontProperties.

Section EnsureFont.

Variable resolveURL : string -> string.

Lemma ensureFont_unfold (config : value) (d : document) :
  ensureFont resolveURL config d
  = match getFontUrl config with
    | Normal f =>
        if negb (truthy f) then (Normal tt, d)
        else if sameAddress resolveURL (fontLinkOf d) f
        then (Normal tt, withFontLink d)
        else match Value.toString f with
             | Normal a =>
                 (Normal tt,
                  updateCustomFontLink (setHref a) (withFontLink d))
             | Throw e => (Throw e, withFontLink d)
             | Unmodelled => (Unmodelled, withFontLink d)
             end
    | Throw e => (Throw e, d)
    | Unmodelled => (Unmodelled, d)
    end.
Proof.
  unfold ensureFont, bind, lift, gets, ret, modify, sameAddress,
    fontLinkOf, withFontLink.
  destruct (getFontUrl config) as [f|e|]; try reflexivity.
  destruct (negb (truthy f)); [reflexivity|].
  destruct (customFontLink d) as [l|]; cbv beta iota.
  - destruct (match f with VStr s => _ | _ => false end); [reflexivity|].
    now destruct (Value.toString f).
  - destruct (match f with VStr s => _ | _ => false end); [reflexivity|].
    now destruct (Value.toString f).
Qed.

Lemma setHref_keeps (a : string) (l : linkElement) :
  customFont (setHref a l) = customFont l.
Proof. reflexivity. Qed.

Lemma setHref_twice (a : string) (l : linkElement) :
  setHref a (setHref a l) = setHref a l.
Proof. reflexivity. Qed.

Lemma customFontLink_withFontLink (d : document) :
  customFontLink (withFontLink d) = Some (fontLinkOf d).
Proof.
  unfold withFontLink, fontLinkOf.
  destruct (customFontLink d) as [l|] eqn:E; [exact E|].
  unfold customFontLink, appendToHead in *. cbn [headLinks bodyLinks].
  rewrite find_app_links in E.
  destruct (find customFont (headLinks d)) eqn:F; [discriminate|].
  now rewrite find_app_links, find_app_links, F.
Qed.

Lemma withFontLink_found (d : document) (l : linkElement) :
  customFontLink d = Some l -> withFontLink d = d /\ fontLinkOf d = l.
Proof. unfold withFontLink, fontLinkOf. now intros ->. Qed.

Lemma fontLinkCount_zero (d : document) :
  customFontLink d = None -> fontLinkCount d = 0.
Proof.
  unfold customFontLink, fontLinkCount.
  induction (headLinks d ++ bodyLinks d)%list as [|l r IH];
    [reflexivity|].
  cbn. destruct (customFont l); [discriminate | exact IH].
Qed.

Lemma fontLinkCount_withFontLink (d : document) :
  fontLinkCount (withFontLink d) = Nat.max 1 (fontLinkCount d).
Proof.
  unfold withFontLink. destruct (customFontLink d) as [l|] eqn:E.
  - unfold customFontLink, fontLinkCount in *.
    induction (headLinks d ++ bodyLinks d)%list as [|x r IH];
      [discriminate|].
    cbn in *. destruct (customFont x); cbn; [lia | now apply IH].
  - rewrite (fontLinkCount_zero d E).
    unfold fontLinkCount in *. unfold appendToHead.
    cbn [headLinks bodyLinks].
    rewrite <- app_assoc. cbn [app].
    unfold customFontLink in E. revert E.
    generalize (headLinks d) as hl. intros hl.
    rewrite find_app_links, !filter_app, !List.length_app.
    intros E. cbn.
    assert (H0 : forall ls, find customFont ls = None ->
                            List.length (filter customFont ls) = 0).
    { clear. induction ls as [|x r IH]; [reflexivity|]. cbn.
      destruct (customFont x); [discriminate | exact IH]. }
    destruct (find customFont hl) eqn:F; [discriminate|].
    rewrite (H0 hl F), (H0 (bodyLinks d) E). reflexivity.
Qed.

(** Applying the same configuration again changes nothing. *)
Lemma ensureFont_again (config : value) (d d1 : document) :
  ensureFont resolveURL config d = (Normal tt, d1) ->
  ensureFont resolveURL config d1 = (Normal tt, d1).
Proof.
  rewrite !ensureFont_unfold.
  destruct (getFontUrl config) as [f|e|]; try discriminate.
  destruct (negb (truthy f)) eqn:T; [now intros [= <-]|].
  destruct (sameAddress resolveURL (fontLinkOf d) f) eqn:S.
  - intros [= <-].
    destruct (customFontLink d) as [l|] eqn:E.
    + destruct (withFontLink_found d l E) as [W _]. now rewrite !W, S.
    + exfalso. unfold fontLinkOf in S. rewrite E in S.
      destruct f as [| | | |s| | |]; try discriminate.
      destruct s; cbn in S, T; discriminate.
  - destruct (Value.toString f) as [a| |] eqn:TS; try discriminate.
    intros [= <-].
    assert (L : customFontLink
                  (updateCustomFontLink (setHref a) (withFontLink d))
                = Some (setHref a (fontLinkOf d))).
    { rewrite (customFontLink_update (setHref a) (setHref_keeps a)).
      now rewrite customFontLink_withFontLink. }
    destruct (withFontLink_found _ _ L) as [-> ->].
    destruct (sameAddress resolveURL (setHref a (fontLinkOf d)) f);
      [reflexivity|].
    now rewrite (update_twice (setHref a) (setHref_keeps a) _
                   (setHref_twice a)).
Qed.

(** [ensureFont] never leaves more font links than one, or than there
    were. *)
Lemma ensureFont_count (config : value) (d d1 : document)
  (r : completion unit) :
  ensureFont resolveURL config d = (r, d1) ->
  fontLinkCount d1 = fontLinkCount d
  \/ fontLinkCount d1 = Nat.max 1 (fontLinkCount d).
Proof.
  rewrite ensureFont_unfold.
  destruct (getFontUrl config) as [f|e|]; try (intros [= <- <-]; now left).
  destruct (negb (truthy f)); [intros [= <- <-]; now left|].
  destruct (sameAddress resolveURL (fontLinkOf d) f).
  - intros [= <- <-]. right. apply fontLinkCount_withFontLink.
  - destruct (Value.toString f); intros [= <- <-]; right;
      rewrite ?(fontLinkCount_update (setHref a) (setHref_keeps a));
      apply fontLinkCount_withFontLink.
Qed.

Lemma ensureFont_in_place (config : value) (d d1 : document)
  (r : completion unit) (l : linkElement) :
  customFontLink d = Some l ->
  ensureFont resolveURL config d = (r, d1) ->
  List.length (headLinks d1) = List.length (headLinks d)
  /\ List.length (bodyLinks d1) = List.length (bodyLinks d).
Proof.
  intros E. rewrite ensureFont_unfold.
  destruct (withFontLink_found d l E) as [W _]. rewrite W.
  destruct (getFontUrl config) as [f|e|]; try (intros [= <- <-]; now split).
  destruct (negb (truthy f)); [intros [= <- <-]; now split|].
  destruct (sameAddress resolveURL (fontLinkOf d) f);
    [intros [= <- <-]; now split|].
  destruct (Value.toString f); intros [= <- <-]; try now split.
  unfold updateCustomFontLink. cbn [headLinks bodyLinks].
  destruct (existsb customFont (headLinks d));
    now rewrite length_updateFirst.
Qed.

Lemma ensureFont_address (config : value) (d d1 : document) (f : string) :
  getFontUrl config = Normal (VStr f) ->
  Str.isEmpty f = false ->
  ensureFont resolveURL config d = (Normal tt, d1) ->
  exists l,
    customFontLink d1 = Some l
    /\ (href l = Some f \/ hrefOf resolveURL l = f).
Proof.
  intros G Hf. rewrite ensureFont_unfold, G. cbn [truthy]. rewrite Hf.
  cbn [negb Value.toString].
  destruct (sameAddress resolveURL (fontLinkOf d) (VStr f)) eqn:S.
  - intros [= <-]. exists (fontLinkOf d).
    split; [apply customFontLink_withFontLink|].
    right. cbn in S. now apply String.eqb_eq in S.
  - intros [= <-]. exists (setHref f (fontLinkOf d)). split; [|now left].
    rewrite (customFontLink_update (setHref f) (setHref_keeps f)).
    now rewrite customFontLink_withFontLink.
Qed.

(** C8, as the code has it: a truthy [fontUrl] is the font address as it
    is; otherwise a [fontFamily] whose first comma-separated name is not
    empty once trimmed gives the address of that name, percent-encoded,
    at the weights 400, 500, 600 and 700; otherwise (no family, or an
    empty first name) there is no address and [ensureFont] leaves the
    document alone.  Applying the same configuration again changes
    nothing, a link that exists is updated where it is, and the number
    of font links never grows beyond one. *)
Theorem C8_font_resolution :
  (forall config u,
      get config fontUrl = Normal u -> truthy u = true ->
      getFontUrl config = Normal u)
  /\ (forall config u f,
        get config fontUrl = Normal u -> truthy u = false ->
        get config fontFamily = Normal (VStr f) ->
        Str.isEmpty (Trim.trim (hd "" (Str.split "," f))) = false ->
        getFontUrl config
        = Normal (VStr (googleFonts (Trim.trim (hd "" (Str.split "," f))))))
  /\ (forall config u f d,
        get config fontUrl = Normal u -> truthy u = false ->
        get config fontFamily = Normal f ->
        (truthy f = false
         \/ exists s, f = VStr s
              /\ Str.isEmpty (Trim.trim (hd "" (Str.split "," s))) = true) ->
        getFontUrl config = Normal VNull
        /\ ensureFont resolveURL config d = (Normal tt, d))
  /\ (forall config d d1,
        ensureFont resolveURL config d = (Normal tt, d1) ->
        ensureFont resolveURL config d1 = (Normal tt, d1))
  /\ (forall config d r d1,
        ensureFont resolveURL config d = (r, d1) ->
        fontLinkCount d <= 1 -> fontLinkCount d1 <= 1)
  /\ (forall config d r d1 l,
        customFontLink d = Some l ->
        ensureFont resolveURL config d = (r, d1) ->
        List.length (headLinks d1) = List.length (headLinks d)
        /\ List.length (bodyLinks d1) = List.length (bodyLinks d))
  /\ (forall config d d1 f,
        getFontUrl config = Normal (VStr f) -> Str.isEmpty f = false ->
        ensureFont resolveURL config d = (Normal tt, d1) ->
        exists l,
          customFontLink d1 = Some l
          /\ (href l = Some f \/ hrefOf resolveURL l = f)).
Proof.
  split; [|split; [|split; [|split; [|split; [|split]]]]].
  - intros config u Hu T. unfold getFontUrl. rewrite Hu. cbn [bindC].
    now rewrite T.
  - intros config u f Hu T Hf Hn. unfold getFontUrl.
    rewrite Hu. cbn [bindC]. rewrite T, Hf. cbn [bindC].
    destruct f as [|c f]; [discriminate Hn|].
    cbn [truthy Str.isEmpty negb]. now rewrite Hn.
  - intros config u f d Hu T Hf H.
    assert (G : getFontUrl config = Normal VNull).
    { unfold getFontUrl. rewrite Hu. cbn [bindC]. rewrite T, Hf.
      cbn [bindC]. destruct H as [F | (s & -> & Hn)].
      - now rewrite F.
      - destruct (negb (truthy (VStr s))); [reflexivity | now rewrite Hn]. }
    split; [exact G|]. now rewrite ensureFont_unfold, G.
  - exact ensureFont_again.
  - intros config d r d1 H Hc.
    destruct (ensureFont_count config d d1 r H) as [E | E]; lia.
  - intros config d r d1 l. apply ensureFont_in_place.
  - exact ensureFont_address.
Qed.

End EnsureFont.

Lemma C8_font_resolution_witness :
  getFontUrl (VObj [("fontFamily", VStr "Noto Sans SC, sans-serif")])
  = Normal (VStr "https://fonts.googleapis.com/css2?family=Noto%20Sans%20SC:wght@400;500;600;700&display=swap")
  /\ ensureFont resolveSame
       (VObj [("fontFamily", VStr "Noto Sans SC, sans-serif")])
       (snd (ensureFont resolveSame
               (VObj [("fontFamily", VStr "Noto Sans SC, sans-serif")])
               blankDocument))
     = (Normal tt,
        snd (ensureFont resolveSame
               (VObj [("fontFamily", VStr "Noto Sans SC, sans-serif")])
               blankDocument)).
Proof.
  destruct (C8_font_resolution resolveSame) as (_ & Hfam & _ & Hagain & _).
  split.
  - exact (Hfam (VObj [("fontFamily", VStr "Noto Sans SC, sans-serif")])
             VUndefined "Noto Sans SC, sans-serif" eq_refl eq_refl eq_refl
             eq_refl).
  - apply (Hagain _ blankDocument). reflexivity.
Defined.

(** C8 as stated fails: the family [, serif] is present, its first name is
    empty, and no address is derived from it. *)
Lemma C8_empty_family_counterexample :
  get (VObj [("fontFamily", VStr ", serif")]) fontFamily
  = Normal (VStr ", serif")
  /\ getFontUrl (VObj [("fontFamily", VStr ", serif")]) = Normal VNull
  /\ ensureFont resolveSame (VObj [("fontFamily", VStr ", serif")])
       blankDocument
     = (Normal tt, blankDocument).
Proof. repeat split; vm_compute; reflexivity. Qed.

(** ** The scroll-linked affordance *)

Module ScrollProperties.

Import Scroll ScrollSpec.

Lemma admissible_app (a b : list event) :
  forall s,
    admissible s (a ++ b) = admissible s a && admissible (run s a) b.
Proof.
  induction a as [|e a IH]; intros s; [reflexivity|].
  cbn [app admissible run fold_left]. rewrite IH.
  unfold run. now rewrite andb_assoc.
Qed.

Lemma raw_admissible (events : list event) :
  forall s, forallb isRaw events = true -> admissible s events = true.
Proof.
  induction events as [|e r IH]; intros s H; [reflexivity|].
  cbn in H. apply andb_true_iff in H. destruct H as [He Hr].
  cbn [admissible]. rewrite (IH _ Hr). now destruct e.
Qed.

Lemma step_coalesced (s : state) (e : event) :
  coalesced s ->
  match e with InitialTimer _ => frameQueue s = 0 | _ => True end ->
  coalesced (step s e).
Proof.
  destruct s as [t n r c]. unfold coalesced. cbn.
  intros [[-> ->] | [-> ->]] He; destruct e; cbn; auto; discriminate.
Qed.

Lemma run_coalesced (events : list event) :
  forall s,
    coalesced s -> admissible s events = true -> coalesced (run s events).
Proof.
  induction events as [|e r IH]; intros s Hs Ha; [exact Hs|].
  cbn [admissible] in Ha. apply andb_true_iff in Ha. destruct Ha as [He Hr].
  cbn [run fold_left]. apply IH; [|exact Hr].
  apply step_coalesced; [exact Hs|].
  destruct e; try exact I. now apply Nat.eqb_eq.
Qed.

(** As long as the timer of the first measurement does not fire while a
    callback waits: at every moment of a run of scroll events, resize
    events and animation frames at most one recomputation waits for the
    next frame; an event that arrives while one waits schedules nothing;
    scheduling is on again only once the frame has run it. *)
Lemma single_pending_without_timer (before after : list event) :
  admissible initial (before ++ after) = true ->
  let s := run initial before in
  frameQueue s <= 1
  /\ (frameQueue s = 1 <-> ticking s = true)
  /\ (frameQueue s = 1 ->
      step s ScrollEvent = s /\ step s ResizeEvent = s)
  /\ (frameQueue s = 0 ->
      frameQueue (step s ScrollEvent) = 1
      /\ frameQueue (step s ResizeEvent) = 1)
  /\ (forall v,
        frameQueue (step s (AnimationFrame v)) = 0
        /\ ticking (step s (AnimationFrame v)) = false).
Proof.
  intros Ha s. rewrite admissible_app in Ha.
  apply andb_true_iff in Ha. destruct Ha as [Ha _].
  assert (C : coalesced s).
  { apply run_coalesced; [right; split; reflexivity | exact Ha]. }
  destruct s as [t n r c]. unfold coalesced in C. cbn in *.
  destruct C as [[-> ->] | [-> ->]]; cbn; repeat split;
    auto; try discriminate; try lia.
Qed.

Lemma single_pending_without_timer_witness :
  frameQueue
    (run initial
       [ScrollEvent; ResizeEvent; ScrollEvent]) <= 1
  /\ forallb isRaw
       [ScrollEvent; ResizeEvent; ScrollEvent;
        AnimationFrame {| scrollHeight := 2000; scrollY := 1400;
                          innerHeight := 600 |};
        ScrollEvent] = true.
Proof.
  split; [|reflexivity].
  exact (proj1 (single_pending_without_timer
                  [ScrollEvent; ResizeEvent; ScrollEvent]
                  [AnimationFrame {| scrollHeight := 2000; scrollY := 1400;
                                     innerHeight := 600 |};
                   ScrollEvent] eq_refl)).
Defined.


End ScrollProperties.

(** ** Colours *)






Lemma append_assoc (a b c : string) : (a ++ b) ++ c = a ++ b ++ c.
Proof. induction a as [|x a IH]; cbn; congruence. Qed.

Section Colours.

Variable resolveURL : string -> string.








End Colours.

(** * Further properties of the controller *)

(** ** Routes and loading *)

Section Routes.

Variable resolveURL : string -> string.
Variable replaceState : location -> string -> completion location.

(** X1: a location that matches neither route shape gets the generic view
    titled [404]: nothing is fetched (the answer of [fetch] plays no part),
    nothing is logged, and no font link is touched. *)
Theorem init_unrecognized_route
  (env : environment) (loc : location) (d : document) :
  handleRedirect replaceState env = Normal loc ->
  pagePath (parseURL loc) = None ->
  init resolveURL replaceState env d
  = (Normal tt, errorShown "404" "页面不存在" d)
  /\ docTitle (errorShown "404" "页面不存在" d) = "404"
  /\ console (errorShown "404" "页面不存在" d) = console d
  /\ headLinks (errorShown "404" "页面不存在" d) = headLinks d.
Proof.
  intros Hr Hp. repeat split.
  unfold init, bind at 1, lift. rewrite Hr. cbv beta iota. rewrite Hp.
  apply renderError_shown.
Qed.

(** X2: the three ways a configuration can fail to load (no answer, an
    answer with a failure status, a body that is not JSON) are not told
    apart on the page: each gives the same page-not-found view naming the
    page, and only the logged error differs. *)
Theorem init_load_failure_unified
  (env : environment) (loc : location) (page : string) (d : document) :
  handleRedirect replaceState env = Normal loc ->
  pagePath (parseURL loc) = Some page ->
  (fetch env (basePath ++ "/" ++ page ++ "/config.json") = NetworkError
   \/ (exists body,
         fetch env (basePath ++ "/" ++ page ++ "/config.json")
         = Response false body)
   \/ fetch env (basePath ++ "/" ++ page ++ "/config.json")
      = Response true None) ->
  exists e,
    init resolveURL replaceState env d
    = (Normal tt,
       errorShown "页面不存在" ("找不到页面: " ++ page) (consoleError e d))
    /\ appHTML (errorShown "页面不存在" ("找不到页面: " ++ page)
                  (consoleError e d))
       = errorView "页面不存在" ("找不到页面: " ++ page)
    /\ headLinks (errorShown "页面不存在" ("找不到页面: " ++ page)
                    (consoleError e d))
       = headLinks d.
Proof.
  intros Hr Hp Hf.
  rewrite (init_recognized resolveURL replaceState env loc page d Hr Hp).
  destruct (loadAndRender_throws resolveURL env page (parseURL loc) d)
    as (H1 & H2 & H3 & _).
  unfold tryCatch.
  destruct Hf as [Hf | [[body Hf] | Hf]].
  - exists TypeError. rewrite (H1 Hf). cbv [bind modify].
    rewrite renderError_shown. repeat split.
  - exists LoadError. rewrite (H2 body Hf). cbv [bind modify].
    rewrite renderError_shown. repeat split.
  - exists SyntaxError. rewrite (H3 Hf). cbv [bind modify].
    rewrite renderError_shown. repeat split.
Qed.

(** ** Bounds of the image index *)

Lemma nthZ_past_end (elems : list value) :
  forall z, (Z.of_nat (List.length elems) <= z)%Z -> nthZ elems z = None.
Proof.
  induction elems as [|e r IH]; intros z H; [reflexivity|].
  cbn [nthZ]. cbn [List.length] in H.
  destruct (Z.eqb_spec z 0) as [E|_]; [lia|]. apply IH. lia.
Qed.

Lemma nthZ_nth_error (elems : list value) :
  forall i, nthZ elems (Z.of_nat i) = nth_error elems i.
Proof.
  induction elems as [|e r IH]; intros [|i]; try reflexivity.
  cbn [nthZ nth_error].
  destruct (Z.eqb_spec (Z.of_nat (S i)) 0) as [E|_]; [lia|].
  replace (Z.of_nat (S i) - 1)%Z with (Z.of_nat i) by lia. apply IH.
Qed.

(** X3: with an array of [n] buttons, the indexes [0 .. n-1] address the
    buttons in order, and every index from [n] on, [Infinity] included,
    gives the image-not-found view that names the index. *)
Theorem renderImagePage_index_bounds
  (page : string) (config : value) (elems : list value) (qs : string)
  (d : document) :
  get config buttons = Normal (VArr elems) ->
  (forall i b,
      nth_error elems i = Some b ->
      getIndex (VArr elems) (Finite (Z.of_nat i)) = Normal b)
  /\ (forall index,
        pastEnd elems index ->
        renderImagePage resolveURL page config index qs d
        = (Normal tt, errorShown "图片不存在" (imageNotFound index) d)).
Proof.
  intros Hb. split.
  - intros i b H. cbn [getIndex]. now rewrite nthZ_nth_error, H.
  - intros index H. unfold renderImagePage, bind, lift. rewrite Hb.
    assert (E : getIndex (VArr elems) index = Normal VUndefined).
    { destruct index as [z|]; [|reflexivity].
      cbn [getIndex]. now rewrite nthZ_past_end. }
    rewrite E. cbn [truthy negb]. apply renderError_shown.
Qed.

End Routes.

Lemma init_unrecognized_route_witness :
  init resolveSame stay
    (serve {| pathname := "/unknown/deeply/nested"; search := "" |} VNull)
    blankDocument
  = (Normal tt, errorShown "404" "页面不存在" blankDocument).
Proof.
  exact (proj1 (init_unrecognized_route resolveSame stay
                  (serve {| pathname := "/unknown/deeply/nested";
                            search := "" |} VNull)
                  {| pathname := "/unknown/deeply/nested"; search := "" |}
                  blankDocument eq_refl eq_refl)).
Defined.

Lemma init_load_failure_unified_witness :
  exists e,
    init resolveSame stay
      {| redirectPath := None;
         current := {| pathname := "/demo"; search := "" |};
         fetch := fun _ => Response false None |}
      blankDocument
    = (Normal tt,
       errorShown "页面不存在" ("找不到页面: " ++ "demo")
         (consoleError e blankDocument)).
Proof.
  destruct (init_load_failure_unified resolveSame stay
              {| redirectPath := None;
                 current := {| pathname := "/demo"; search := "" |};
                 fetch := fun _ => Response false None |}
              {| pathname := "/demo"; search := "" |} "demo" blankDocument
              eq_refl eq_refl
              (or_intror (or_introl (ex_intro _ None eq_refl))))
    as (e & H & _).
  now exists e.
Defined.

Lemma renderImagePage_index_bounds_witness :
  renderImagePage resolveSame "demo"
    (VObj [("buttons", VArr [VObj [("text", VStr "A")];
                             VObj [("text", VStr "B")]])])
    (Finite 9) "" blankDocument
  = (Normal tt,
     errorShown "图片不存在" (imageNotFound (Finite 9)) blankDocument).
Proof.
  apply (proj2 (renderImagePage_index_bounds resolveSame "demo"
                  (VObj [("buttons", VArr [VObj [("text", VStr "A")];
                                           VObj [("text", VStr "B")]])])
                  [VObj [("text", VStr "A")]; VObj [("text", VStr "B")]]
                  "" blankDocument eq_refl) (Finite 9)).
  cbn. lia.
Defined.

(** ** Navigation between the two screens *)

Lemma decimalValue_acc (d : Decimal.uint) :
  forall acc,
    decimalValue (Z.pos acc) (DecimalString.NilEmpty.string_of_uint d)
    = Z.pos (Pos.of_uint_acc d acc).
Proof.
  induction d as [|d IH|d IH|d IH|d IH|d IH|d IH|d IH|d IH|d IH|d IH];
    intros acc; [reflexivity|..];
    cbn [DecimalString.NilEmpty.string_of_uint decimalValue Pos.of_uint_acc];
    rewrite <- IH; f_equal;
    match goal with
    | |- context [digitValue ?c] =>
        let v := eval vm_compute in (digitValue c) in
        change (digitValue c) with v
    end; lia.
Qed.

Lemma decimalValue_of_uint (d : Decimal.uint) :
  decimalValue 0 (DecimalString.NilEmpty.string_of_uint d)
  = Z.of_N (Pos.of_uint d).
Proof.
  induction d as [|d IH|d IH|d IH|d IH|d IH|d IH|d IH|d IH|d IH|d IH];
    [reflexivity | exact IH |..];
    cbn [DecimalString.NilEmpty.string_of_uint decimalValue Pos.of_uint];
    cbn [Z.of_N]; rewrite <- decimalValue_acc; f_equal.
Qed.

(** Writing a non-negative integer in decimal and reading it back. *)
Lemma decimalValue_decimal (z : Z) :
  (0 <= z)%Z -> decimalValue 0 (Number.decimal z) = z.
Proof.
  intros H. unfold Number.decimal, DecimalString.NilZero.string_of_uint.
  rewrite <- (Z2N.id z H) at 2.
  rewrite <- (DecimalN.Unsigned.of_to (Z.to_N z)) at 2.
  unfold N.of_uint.
  destruct (N.to_uint (Z.to_N z)) eqn:E; try apply decimalValue_of_uint.
  reflexivity.
Qed.

Lemma string_of_uint_digits (d : Decimal.uint) :
  Str.all isDigit (DecimalString.NilEmpty.string_of_uint d) = true.
Proof.
  induction d as [|d IH|d IH|d IH|d IH|d IH|d IH|d IH|d IH|d IH|d IH];
    [reflexivity|..]; cbn [DecimalString.NilEmpty.string_of_uint Str.all];
    rewrite IH; reflexivity.
Qed.

Lemma digitString_decimal (z : Z) : digitString (Number.decimal z) = true.
Proof.
  unfold digitString, Number.decimal, DecimalString.NilZero.string_of_uint.
  destruct (N.to_uint (Z.to_N z)) eqn:E; [reflexivity|..];
    rewrite string_of_uint_digits; reflexivity.
Qed.

Lemma slice1_searchOf (qs : string) : Str.slice1 (searchOf qs) = qs.
Proof. now destruct qs. Qed.

(** X4: activating the card of button [i] leads to the detail route of the
    same page, with index [i] and the query string as it was. *)
Theorem card_navigation_round_trip (page qs : string) (i : nat) :
  validSegment page = true ->
  (Z.of_nat i < 2 ^ 53)%Z ->
  cardTarget page (Number.decimal (Z.of_nat i)) qs
  = ("/" ++ page ++ "/image/" ++ Number.decimal (Z.of_nat i)) ++ searchOf qs
  /\ parseURL {| pathname := "/" ++ page ++ "/image/"
                            ++ Number.decimal (Z.of_nat i);
                 search := searchOf qs |}
     = {| pagePath := Some page;
          imageIndex := Some (Finite (Z.of_nat i));
          queryString := qs |}.
Proof.
  intros Hp Hi. split.
  - unfold cardTarget, searchOf. now rewrite !append_assoc.
  - destruct (validSegment_parts page Hp) as (H1 & H2 & H3).
    unfold parseURL. cbn [pathname search].
    rewrite (matchPath_image page _ H1 H2 (digitString_decimal _)), H3.
    unfold parseInt. rewrite decimalValue_decimal by lia.
    rewrite roundToDouble_exact by exact Hi.
    now rewrite slice1_searchOf.
Qed.

Lemma card_navigation_round_trip_witness :
  parseURL {| pathname := "/" ++ "demo" ++ "/image/"
                          ++ Number.decimal (Z.of_nat 3);
              search := searchOf "ref=abc" |}
  = {| pagePath := Some "demo"; imageIndex := Some (Finite (Z.of_nat 3));
       queryString := "ref=abc" |}.
Proof.
  apply (proj2 (card_navigation_round_trip "demo" "ref=abc" 3 eq_refl
                  eq_refl)).
Defined.

(** X5: the back control of the detail screen leads to the list route of the
    same page, with the query string as it was. *)
Theorem back_navigation_round_trip (page qs : string) :
  validSegment page = true ->
  backUrlOf page qs = ("/" ++ page) ++ searchOf qs
  /\ parseURL {| pathname := "/" ++ page; search := searchOf qs |}
     = {| pagePath := Some page; imageIndex := None; queryString := qs |}.
Proof.
  intros Hp. split.
  - unfold backUrlOf, searchOf. now rewrite !append_assoc.
  - destruct (validSegment_parts page Hp) as (H1 & H2 & H3).
    unfold parseURL. cbn [pathname search].
    rewrite (matchPath_page page H1 H2), H3.
    now rewrite slice1_searchOf.
Qed.

Lemma back_navigation_round_trip_witness :
  parseURL {| pathname := "/" ++ "demo"; search := searchOf "ref=abc" |}
  = {| pagePath := Some "demo"; imageIndex := None;
       queryString := "ref=abc" |}.
Proof. apply (proj2 (back_navigation_round_trip "demo" "ref=abc" eq_refl)). Defined.

(** ** Placeholders that find nothing, values that were encoded *)

Lemma forEachParam_inert (params : list (string * string)) (r : string) :
  plainKeys params = true ->
  noPlaceholderFor params r = true ->
  forEachParam params r = Normal r.
Proof.
  induction params as [|[k v] rest IH]; intros Hk Hn; [reflexivity|].
  cbn [plainKeys forallb fst] in Hk. apply andb_true_iff in Hk.
  destruct Hk as [Hk Hr].
  cbn [noPlaceholderFor forallb fst] in Hn. apply andb_true_iff in Hn.
  destruct Hn as [Ho Hn]. apply negb_true_iff in Ho.
  cbn [forEachParam]. rewrite (RegExp_new_plain k Hk). cbn [bindC].
  rewrite (replaceAll_absent _ _ _ Ho). now apply IH.
Qed.

(** X6: pairs of the query string whose key has no placeholder in the link are
    inert, whatever their values: the result is the link with [{query}]
    replaced and nothing else touched. *)
Theorem replaceQueryPlaceholder_inert_keys (u q : string) :
  plainKeys (URLSearchParams.new q) = true ->
  noPlaceholderFor (URLSearchParams.new q)
    (Replace.replaceAll "{query}" q u) = true ->
  replaceQueryPlaceholder (VStr u) q
  = Normal (Replace.replaceAll "{query}" q u).
Proof.
  intros Hk Hn. unfold replaceQueryPlaceholder.
  destruct (Str.isEmpty q); [reflexivity|].
  now apply forEachParam_inert.
Qed.

Lemma replaceQueryPlaceholder_inert_keys_witness :
  replaceQueryPlaceholder (VStr "https://x.com/{ref}?{query}") "utm=$1&b=2"
  = Normal (Replace.replaceAll "{query}" "utm=$1&b=2"
              "https://x.com/{ref}?{query}").
Proof.
  apply (replaceQueryPlaceholder_inert_keys "https://x.com/{ref}?{query}"
           "utm=$1&b=2"); reflexivity.
Defined.

(** X7: without a query string the only thing that happens to a link is that
    every [{query}] is taken out; every other placeholder stays as it is
    written. *)
Theorem replaceQueryPlaceholder_empty_query (u : string) :
  replaceQueryPlaceholder (VStr u) "" = Normal (literalReplace "{query}" "" u)
  /\ (Str.occurs "{query}" u = false ->
      replaceQueryPlaceholder (VStr u) "" = Normal u).
Proof.
  assert (E : replaceQueryPlaceholder (VStr u) ""
              = Normal (literalReplace "{query}" "" u)).
  { unfold replaceQueryPlaceholder. cbn [Str.isEmpty].
    now rewrite replaceAll_noDollar. }
  split; [exact E|]. intros H. rewrite E. now rewrite literalReplace_absent.
Qed.

Lemma replaceQueryPlaceholder_empty_query_witness :
  replaceQueryPlaceholder (VStr "https://x.com?r={ref}") ""
  = Normal "https://x.com?r={ref}".
Proof.
  exact (proj2 (replaceQueryPlaceholder_empty_query "https://x.com?r={ref}")
           eq_refl).
Defined.

Ltac each_ascii c := destruct c as [[] [] [] [] [] [] [] []].

Lemma hexDigit_round_trip (c : ascii) :
  URLSearchParams.hexValue (URI.hexDigit (nat_of_ascii c / 16))
  = Some (nat_of_ascii c / 16)
  /\ URLSearchParams.hexValue (URI.hexDigit (nat_of_ascii c mod 16))
     = Some (nat_of_ascii c mod 16)
  /\ ascii_of_nat (16 * (nat_of_ascii c / 16) + nat_of_ascii c mod 16) = c
  /\ clean (URI.hexDigit (nat_of_ascii c / 16)) = true
  /\ clean (URI.hexDigit (nat_of_ascii c mod 16)) = true.
Proof. each_ascii c; vm_compute; repeat split; reflexivity. Qed.

Lemma unreserved_facts (c : ascii) :
  URI.isUnreserved c = true ->
  Ascii.eqb c "%" = false /\ Ascii.eqb c "=" = false
  /\ Ascii.eqb c "?" = false /\ clean c = true /\ isAscii c = true.
Proof.
  each_ascii c; vm_compute; intros H; try discriminate H; repeat split;
    reflexivity.
Qed.

Lemma clean_facts (c : ascii) :
  clean c = true ->
  Ascii.eqb c "+" = false /\ Ascii.eqb c "&" = false
  /\ Ascii.eqb c "$" = false.
Proof.
  each_ascii c; vm_compute; intros H; try discriminate H; repeat split;
    reflexivity.
Qed.

(** Percent-decoding undoes [encodeURIComponent], byte by byte. *)
Lemma percentDecode_encode (s : string) :
  URLSearchParams.percentDecode (URI.encodeURIComponent s) = s.
Proof.
  induction s as [|c s IH]; [reflexivity|].
  cbn [URI.encodeURIComponent].
  destruct (URI.isUnreserved c) eqn:U.
  - destruct (unreserved_facts c U) as (P & _).
    cbn [URLSearchParams.percentDecode]. now rewrite P, IH.
  - destruct (hexDigit_round_trip c) as (H1 & H2 & H3 & _).
    cbn [URLSearchParams.percentDecode].
    replace (Ascii.eqb "%" "%") with true by reflexivity.
    now rewrite H1, H2, H3, IH.
Qed.

Lemma encode_clean (s : string) :
  Str.all clean (URI.encodeURIComponent s) = true.
Proof.
  induction s as [|c s IH]; [reflexivity|].
  cbn [URI.encodeURIComponent].
  destruct (URI.isUnreserved c) eqn:U.
  - destruct (unreserved_facts c U) as (_ & _ & _ & C & _).
    cbn [Str.all]. now rewrite C, IH.
  - destruct (hexDigit_round_trip c) as (_ & _ & _ & C1 & C2).
    cbn [Str.all]. rewrite C1, C2, IH. reflexivity.
Qed.

Lemma all_app (f : ascii -> bool) (a b : string) :
  Str.all f (a ++ b) = Str.all f a && Str.all f b.
Proof.
  induction a as [|c a IH]; [reflexivity|].
  cbn. now rewrite IH, andb_assoc.
Qed.

Lemma all_weaken (f g : ascii -> bool) (s : string) :
  (forall c, f c = true -> g c = true) ->
  Str.all f s = true -> Str.all g s = true.
Proof.
  intros H. induction s as [|c s IH]; [reflexivity|].
  cbn. intros E. apply andb_true_iff in E. destruct E as [E1 E2].
  now rewrite (H c E1), IH.
Qed.

Lemma plusToSpace_clean (s : string) :
  Str.all clean s = true -> URLSearchParams.plusToSpace s = s.
Proof.
  induction s as [|c s IH]; [reflexivity|].
  cbn. intros E. apply andb_true_iff in E. destruct E as [E1 E2].
  destruct (clean_facts c E1) as (P & _). now rewrite P, IH.
Qed.

Lemma split_clean (s : string) :
  Str.all clean s = true -> Str.split "&" s = [s].
Proof.
  induction s as [|c s IH]; [reflexivity|].
  cbn. intros E. apply andb_true_iff in E. destruct E as [E1 E2].
  destruct (clean_facts c E1) as (_ & P & _). now rewrite P, IH.
Qed.

Lemma noDollar_clean (s : string) : Str.all clean s = true -> noDollar s = true.
Proof.
  unfold noDollar. induction s as [|c s IH]; [reflexivity|].
  cbn. intros E. apply andb_true_iff in E. destruct E as [E1 E2].
  destruct (clean_facts c E1) as (_ & _ & P). rewrite P. now apply IH.
Qed.

Lemma percentDecode_plain (s : string) :
  Str.all URI.isUnreserved s = true -> URLSearchParams.percentDecode s = s.
Proof.
  induction s as [|c s IH]; [reflexivity|].
  cbn [Str.all]. intros E. apply andb_true_iff in E. destruct E as [E1 E2].
  destruct (unreserved_facts c E1) as (P & _).
  cbn [URLSearchParams.percentDecode]. now rewrite P, IH.
Qed.

Lemma utf8Decode_ascii (s : string) :
  Str.all isAscii s = true ->
  URLSearchParams.utf8Decode URLSearchParams.idle s = s.
Proof.
  induction s as [|c s IH]; [reflexivity|].
  cbn [Str.all]. intros E. apply andb_true_iff in E. destruct E as [E1 E2].
  cbn [URLSearchParams.utf8Decode URLSearchParams.idle
         URLSearchParams.needed].
  unfold URLSearchParams.lead. unfold isAscii in E1. rewrite E1.
  cbn [append]. now rewrite IH.
Qed.

Lemma splitPair_key (k r : string) :
  Str.all URI.isUnreserved k = true ->
  URLSearchParams.splitPair (k ++ "=" ++ r) = (k, r).
Proof.
  induction k as [|c k IH]; [reflexivity|].
  cbn [Str.all]. intros E. apply andb_true_iff in E. destruct E as [E1 E2].
  destruct (unreserved_facts c E1) as (_ & P & _).
  cbn [append URLSearchParams.splitPair]. rewrite P.
  change (k ++ String "=" r) with (k ++ "=" ++ r). now rewrite (IH E2).
Qed.

Lemma query_clean (k v : string) :
  Str.all URI.isUnreserved k = true ->
  Str.all clean (k ++ "=" ++ URI.encodeURIComponent v) = true.
Proof.
  intros Hk. rewrite all_app.
  rewrite (all_weaken URI.isUnreserved clean k
             (fun c H => proj1 (proj2 (proj2 (proj2 (unreserved_facts c H)))))
             Hk).
  cbn [append Str.all andb]. replace (clean "=") with true by reflexivity.
  apply encode_clean.
Qed.

Lemma decodeComponent_key (k : string) :
  Str.all URI.isUnreserved k = true -> URLSearchParams.decodeComponent k = k.
Proof.
  intros Hk. unfold URLSearchParams.decodeComponent.
  rewrite plusToSpace_clean, percentDecode_plain by
    (try assumption;
     exact (all_weaken _ _ k
              (fun c H => proj1 (proj2 (proj2 (proj2 (unreserved_facts c H)))))
              Hk)).
  apply utf8Decode_ascii.
  exact (all_weaken _ _ k
           (fun c H => proj2 (proj2 (proj2 (proj2 (unreserved_facts c H)))))
           Hk).
Qed.

Lemma decodeComponent_encode (v : string) :
  Str.all isAscii v = true ->
  URLSearchParams.decodeComponent (URI.encodeURIComponent v) = v.
Proof.
  intros Hv. unfold URLSearchParams.decodeComponent.
  rewrite (plusToSpace_clean _ (encode_clean v)), percentDecode_encode.
  now apply utf8Decode_ascii.
Qed.

(** The one pair of a query string [key=value] whose value was written
    with [encodeURIComponent]. *)
Lemma new_encoded_pair (k v : string) :
  Str.all URI.isUnreserved k = true ->
  Str.all isAscii v = true ->
  URLSearchParams.new (k ++ "=" ++ URI.encodeURIComponent v) = [(k, v)].
Proof.
  intros Hk Hv. unfold URLSearchParams.new.
  assert (Q : Str.startsWith "?" (k ++ "=" ++ URI.encodeURIComponent v)
              = false).
  { destruct k as [|c k]; [reflexivity|].
    cbn [Str.all] in Hk. apply andb_true_iff in Hk. destruct Hk as [Hc _].
    destruct (unreserved_facts c Hc) as (_ & _ & P & _).
    cbn [append Str.startsWith]. now rewrite Ascii.eqb_sym, P. }
  rewrite Q. unfold URLSearchParams.parse.
  rewrite (split_clean _ (query_clean k v Hk)).
  cbn [filter].
  replace (Str.isEmpty (k ++ "=" ++ URI.encodeURIComponent v)) with false
    by now destruct k.
  cbn [negb map]. rewrite (splitPair_key k _ Hk).
  now rewrite (decodeComponent_key k Hk), (decodeComponent_encode v Hv).
Qed.

(** X8: a value written into the query string with [encodeURIComponent]
    reaches the link decoded, as it was before encoding: with the query
    string [key=encoded], every [{key}] of the link is replaced by the
    original value (an ASCII value without dollars, a key made of
    unreserved characters that are no pattern syntax). *)
Theorem encoded_value_round_trip (u k v : string) :
  Str.all URI.isUnreserved k = true ->
  RegExp.plain k = true ->
  Str.all isAscii v = true ->
  noDollar v = true ->
  replaceQueryPlaceholder (VStr u) (k ++ "=" ++ URI.encodeURIComponent v)
  = Normal (literalReplace ("{" ++ k ++ "}") v
              (literalReplace "{query}"
                 (k ++ "=" ++ URI.encodeURIComponent v) u)).
Proof.
  intros Hk Hp Hv Hd.
  rewrite replaceQueryPlaceholder_tame.
  - now rewrite (new_encoded_pair k v Hk Hv).
  - apply noDollar_clean, query_clean, Hk.
  - rewrite (new_encoded_pair k v Hk Hv). cbn [tame forallb fst snd].
    now rewrite Hp, Hd.
Qed.

Lemma encoded_value_round_trip_witness :
  replaceQueryPlaceholder (VStr "https://x.com?r={ref}")
    ("ref" ++ "=" ++ URI.encodeURIComponent "a b&c=d/e?")
  = Normal "https://x.com?r=a b&c=d/e?".
Proof.
  exact (encoded_value_round_trip "https://x.com?r={ref}" "ref" "a b&c=d/e?"
           eq_refl eq_refl eq_refl eq_refl).
Defined.

(** ** The two screens *)

Section Screens.

Variable resolveURL : string -> string.

(** X10: a button needs a string [link]: when the field is missing, or holds
    anything but a string, the detail screen throws a TypeError before it
    writes any markup (and [init] shows the page-not-found view). *)
Theorem renderImagePage_link_required
  (page : string) (config btns button lnk : value) (index : number)
  (qs : string) (d : document) :
  get config buttons = Normal btns ->
  getIndex btns index = Normal button ->
  truthy button = true ->
  get button link = Normal lnk ->
  notString lnk ->
  exists d',
    renderImagePage resolveURL page config index qs d = (Throw TypeError, d')
    /\ appHTML d' = appHTML d.
Proof.
  intros Hb Hi Ht Hl Hn.
  assert (T : throws (renderImagePage resolveURL page config index qs)).
  { unfold renderImagePage.
    rewrite Hb. apply throws_bind_normal.
    rewrite Hi. apply throws_bind_normal.
    rewrite Ht. cbn [negb].
    apply throws_bind; [apply keeps_lift, safeC_get | intros img].
    apply throws_bind; [apply keeps_lift, safeC_getResourcePath | intros iu].
    rewrite Hl. apply throws_bind_normal.
    replace (replaceQueryPlaceholder lnk qs) with (@Throw string TypeError)
      by (destruct lnk; try reflexivity; contradiction).
    apply throws_bind_lift. }
  exact (T d).
Qed.



Lemma others_updateFirst (a : string) (ls : list linkElement) :
  filter (fun l => negb (customFont l)) (updateFirst (setHref a) ls)
  = filter (fun l => negb (customFont l)) ls.
Proof.
  induction ls as [|l r IH]; [reflexivity|]. cbn [updateFirst].
  destruct (customFont l) eqn:E; cbn [filter].
  - cbn [setHref customFont]. now rewrite E.
  - now rewrite E, IH.
Qed.

Lemma otherLinks_update (a : string) (d : document) :
  otherLinks (updateCustomFontLink (setHref a) d) = otherLinks d.
Proof.
  unfold otherLinks, updateCustomFontLink. cbn [headLinks bodyLinks].
  rewrite !filter_app.
  destruct (existsb customFont (headLinks d)); now rewrite others_updateFirst.
Qed.

Lemma otherLinks_withFontLink (d : document) :
  otherLinks (withFontLink d) = otherLinks d.
Proof.
  unfold withFontLink. destruct (customFontLink d); [reflexivity|].
  unfold otherLinks, appendToHead. cbn [headLinks bodyLinks].
  rewrite !filter_app. cbn. now rewrite app_nil_r.
Qed.

(** X13: [ensureFont] touches nothing but the custom font link: the title, the
    description, the markup and the console stay as they are, and so does
    every other link of the document, whether it throws or not. *)
Theorem ensureFont_touches_only_font_link
  (config : value) (d d1 : document) (r : completion unit) :
  ensureFont resolveURL config d = (r, d1) ->
  docTitle d1 = docTitle d
  /\ metaDescription d1 = metaDescription d
  /\ appHTML d1 = appHTML d
  /\ console d1 = console d
  /\ otherLinks d1 = otherLinks d.
Proof.
  rewrite ensureFont_unfold.
  assert (W : docTitle (withFontLink d) = docTitle d
              /\ metaDescription (withFontLink d) = metaDescription d
              /\ appHTML (withFontLink d) = appHTML d
              /\ console (withFontLink d) = console d
              /\ otherLinks (withFontLink d) = otherLinks d).
  { repeat split; try apply otherLinks_withFontLink;
      unfold withFontLink; now destruct (customFontLink d). }
  destruct (getFontUrl config) as [f|e|];
    try (intros [= <- <-]; repeat split).
  destruct (negb (truthy f)); [intros [= <- <-]; repeat split|].
  destruct (sameAddress resolveURL (fontLinkOf d) f);
    [intros [= <- <-]; exact W|].
  destruct (Value.toString f) as [a|e|]; intros [= <- <-]; try exact W.
  rewrite otherLinks_update. exact W.
Qed.

End Screens.

Lemma renderImagePage_link_required_witness :
  exists d',
    renderImagePage resolveSame "demo"
      (VObj [("buttons", VArr [VObj [("text", VStr "Play")]])])
      (Finite 0) "" blankDocument = (Throw TypeError, d')
    /\ appHTML d' = appHTML blankDocument.
Proof.
  exact (renderImagePage_link_required resolveSame "demo"
           (VObj [("buttons", VArr [VObj [("text", VStr "Play")]])])
           (VArr [VObj [("text", VStr "Play")]])
           (VObj [("text", VStr "Play")]) VUndefined (Finite 0) ""
           blankDocument eq_refl eq_refl eq_refl eq_refl I).
Defined.


Lemma ensureFont_touches_only_font_link_witness :
  otherLinks (snd (ensureFont resolveSame
                     (VObj [("fontFamily", VStr "Inter, sans-serif")])
                     blankDocument))
  = otherLinks blankDocument.
Proof.
  apply (ensureFont_touches_only_font_link resolveSame
           (VObj [("fontFamily", VStr "Inter, sans-serif")]) blankDocument
           _ (Normal tt)). reflexivity.
Defined.

(** ** The scroll-linked affordance, event by event *)

Module ScrollEvents.

Import Scroll ScrollSpec.

Lemma runCallbacks_classes (n : nat) (v : viewport) :
  forall s,
    isCompact s = negb (isReady s) ->
    isCompact (runCallbacks n v s) = negb (isReady (runCallbacks n v s)).
Proof.
  induction n as [|n IH]; intros s H; [exact H|].
  cbn [runCallbacks]. apply IH. reflexivity.
Qed.

Lemma runCallbacks_ready (n : nat) (v : viewport) :
  forall s, isReady (runCallbacks (S n) v s) = nearBottom v.
Proof.
  induction n as [|n IH]; intros s; [reflexivity|].
  change (runCallbacks (S (S n)) v s)
    with (runCallbacks (S n) v (updateState v s)).
  apply IH.
Qed.

Lemma step_classes (s : state) (e : event) :
  isCompact s = negb (isReady s) ->
  isCompact (step s e) = negb (isReady (step s e)).
Proof.
  intros H. destruct e as [| |v|v]; cbn [step].
  - unfold onScroll. now destruct (ticking s).
  - unfold onScroll. now destruct (ticking s).
  - now apply runCallbacks_classes.
  - reflexivity.
Qed.

(** X14: the link button is compact exactly when it is not ready, after any
    events in any order; a recomputation (from a frame with a callback
    waiting, or from the timer) makes it ready exactly when the viewport
    is within 60 units of the bottom; scroll and resize events by
    themselves, and a frame with nothing waiting, leave the button as it
    is. *)
Theorem affordance_follows_viewport (events : list event) :
  isCompact (run initial events) = negb (isReady (run initial events))
  /\ (forall s v,
        1 <= frameQueue s ->
        isReady (step s (AnimationFrame v)) = nearBottom v)
  /\ (forall s v, isReady (step s (InitialTimer v)) = nearBottom v)
  /\ (forall s e,
        isTrigger e = true -> isReady (step s e) = isReady s)
  /\ (forall s v,
        frameQueue s = 0 ->
        isReady (step s (AnimationFrame v)) = isReady s
        /\ ticking (step s (AnimationFrame v)) = ticking s).
Proof.
  repeat match goal with |- _ /\ _ => split end.
  - assert (G : forall evs s,
               isCompact s = negb (isReady s) ->
               isCompact (run s evs) = negb (isReady (run s evs))).
    { induction evs as [|e r IH]; intros s H; [exact H|].
      cbn [run fold_left]. apply IH. now apply step_classes. }
    now apply G.
  - intros s v H. cbn [step]. destruct (frameQueue s) as [|n]; [lia|].
    apply runCallbacks_ready.
  - reflexivity.
  - intros s [| |v|v] H; try discriminate H;
      cbn [step]; unfold onScroll; now destruct (ticking s).
  - intros s v H. cbn [step]. rewrite H. split; reflexivity.
Qed.

Lemma affordance_follows_viewport_witness :
  isReady (step (run initial [ScrollEvent])
             (AnimationFrame {| scrollHeight := 2000; scrollY := 1350;
                                innerHeight := 600 |}))
  = nearBottom {| scrollHeight := 2000; scrollY := 1350;
                  innerHeight := 600 |}.
Proof.
  destruct (affordance_follows_viewport []) as (_ & H & _).
  apply H. cbn. lia.
Defined.





End ScrollEvents.

Lemma replaceQueryPlaceholder_no_token_witness :
  replaceQueryPlaceholder (VStr "https://example.com/app") "ref=$&x=1"
  = Normal "https://example.com/app".
Proof.
  apply (replaceQueryPlaceholder_no_token "https://example.com/app"
           "ref=$&x=1"); reflexivity.
Defined.

(** ** Replacement around a placeholder

    A placeholder begins with the only opening brace it holds, so no
    occurrence of one placeholder reaches into another: replacement works
    on the text before a placeholder and on the text after it apart. *)

















(** ** Rendering a configuration of strings *)

Lemma get_obj (f : list (string * value)) (p : prop) :
  get (VObj f) p = Normal (field f p).
Proof. unfold field. cbn. now destruct (lookup (prop_name p) f). Qed.

Lemma getOr_obj (f : list (string * value)) (p1 p2 : prop) :
  getOr (VObj f) p1 p2 = Normal (Value.or (field f p1) (field f p2)).
Proof.
  unfold getOr, Value.or. rewrite !get_obj. cbn [bindC].
  now destruct (truthy (field f p1)).
Qed.

Lemma toString_textual (v : value) :
  isTextual v = true -> Value.toString v = Normal (textOf v).
Proof. destruct v; try discriminate; reflexivity. Qed.

Lemma textual_or (a b : value) :
  isTextual a = true -> isTextual b = true -> isTextual (Value.or a b) = true.
Proof. intros Ha Hb. unfold Value.or. now destruct (truthy a). Qed.

Lemma textual_coalesce (a b : value) :
  isTextual a = true -> isTextual b = true ->
  isTextual (Value.coalesce a b) = true.
Proof. intros Ha Hb. unfold Value.coalesce. now destruct (nullish a). Qed.

Lemma coalesce_layered (own screen page : value) :
  Value.coalesce own (Value.or screen page) = layered own screen page.
Proof. reflexivity. Qed.

Lemma optionalPart_textual (a : string) (v : value) (b : string) :
  isTextual v = true -> optionalPart a v b = Normal (optionalText a v b).
Proof.
  intros H. unfold optionalPart, optionalText. rewrite (toString_textual v H).
  now destruct (truthy v).
Qed.

Lemma part_textual (label : string) (v : value) :
  isTextual v = true ->
  (if truthy v
   then bindC (Value.toString v) (fun s => Normal [label ++ s])
   else Normal [])
  = Normal (if truthy v then [label ++ textOf v] else []).
Proof.
  intros H. rewrite (toString_textual v H). now destruct (truthy v).
Qed.

Lemma buildStyleVars_textual (bg tx : value) :
  isTextual bg = true -> isTextual tx = true ->
  buildStyleVars bg tx = Normal (styleAttr bg tx).
Proof.
  intros Hb Ht. unfold buildStyleVars, styleAttr.
  rewrite (toString_textual bg Hb), (toString_textual tx Ht).
  destruct (truthy bg), (truthy tx); cbn [bindC app Str.join];
    rewrite ?append_assoc; reflexivity.
Qed.

Lemma getResourcePath_textual (page : string) (v : value) :
  isTextual v = true -> getResourcePath page v = Normal (resourcePath page v).
Proof.
  destruct v as [| | | |r| | |]; try discriminate; intros _; [reflexivity|].
  unfold getResourcePath, resourcePath. cbn [truthy].
  destruct (Str.isEmpty r); cbn [negb]; [reflexivity|].
  now destruct (Str.startsWith "http" r).
Qed.

Lemma textualFields_field (f : list (string * value)) (ps : list prop)
  (p : prop) :
  textualFields f ps = true -> In p ps -> isTextual (field f p) = true.
Proof.
  unfold textualFields. rewrite forallb_forall. intros H Hp. now apply H.
Qed.

Lemma bind_ok {A B} (m : M A) (k : A -> M B) (d d1 : document) (a : A) :
  m d = (Normal a, d1) -> bind m k d = k a d1.
Proof. intros H. unfold bind. now rewrite H. Qed.

Lemma bind_lift_ok {A B} (a : A) (k : A -> M B) (d : document) :
  bind (lift (Normal a)) k d = k a d.
Proof. reflexivity. Qed.

Lemma bind_ret_ok {A B} (a : A) (k : A -> M B) (d : document) :
  bind (ret a) k d = k a d.
Proof. reflexivity. Qed.

Lemma getFontUrl_textual (cf : list (string * value)) :
  isTextual (field cf fontUrl) = true ->
  isTextual (field cf fontFamily) = true ->
  exists f, getFontUrl (VObj cf) = Normal f
            /\ (f = VNull \/ exists s, f = VStr s).
Proof.
  intros Hu Hf. unfold getFontUrl. rewrite !get_obj. cbn [bindC].
  destruct (field cf fontUrl) as [| | | |u| | |]; try discriminate.
  - cbn [truthy].
    destruct (field cf fontFamily) as [| | | |fam| | |]; try discriminate.
    + cbn. eauto.
    + destruct (negb (truthy (VStr fam))); [eauto|].
      destruct (Str.isEmpty _); eauto.
  - destruct (truthy (VStr u)); [eauto|].
    destruct (field cf fontFamily) as [| | | |fam| | |]; try discriminate.
    + cbn. eauto.
    + destruct (negb (truthy (VStr fam))); [eauto|].
      destruct (Str.isEmpty _); eauto.
Qed.

Section TextualRendering.

Variable resolveURL : string -> string.

Lemma ensureFont_textual (cf : list (string * value)) (d : document) :
  isTextual (field cf fontUrl) = true ->
  isTextual (field cf fontFamily) = true ->
  exists d1, ensureFont resolveURL (VObj cf) d = (Normal tt, d1).
Proof.
  intros Hu Hf. rewrite ensureFont_unfold.
  destruct (getFontUrl_textual cf Hu Hf) as (f & -> & [->|(s & ->)]).
  - cbn. eauto.
  - destruct (negb (truthy (VStr s))); [eauto|].
    destruct (sameAddress resolveURL (fontLinkOf d) (VStr s));
      cbn [Value.toString]; eauto.
Qed.

Lemma updatePageMeta_textual (t c : value) (d : document) :
  isTextual t = true -> isTextual c = true ->
  exists d1, updatePageMeta t c d = (Normal tt, d1).
Proof.
  intros Ht Hc. unfold updatePageMeta.
  assert (Hs : Value.toString (Value.or c (VStr "")) 
               = Normal (textOf (Value.or c (VStr "")))).
  { apply toString_textual. now apply textual_or. }
  rewrite Hs, (toString_textual t Ht).
  unfold bind, lift, gets, ret, modify.
  destruct (truthy t); destruct (metaDescription d) eqn:Em; cbn;
    rewrite ?Em; eauto.
Qed.

End TextualRendering.

Lemma buttonCard_textual (cf f : list (string * value)) (i : nat) :
  textualFields cf pageProps = true ->
  textualFields f buttonProps = true ->
  buttonCard
    (Value.or (field cf pageButtonBackgroundColor)
       (field cf buttonBackgroundColor))
    (Value.or (field cf pageButtonTextColor) (field cf buttonTextColor))
    (VObj f) i
  = Normal (expectedCard cf (VObj f) i).
Proof.
  intros Hc Hf.
  assert (C : forall p, In p pageProps -> isTextual (field cf p) = true)
    by (intros p; now apply textualFields_field).
  assert (B : forall p, In p buttonProps -> isTextual (field f p) = true)
    by (intros p; now apply textualFields_field).
  unfold buttonCard, expectedCard. rewrite !get_obj. cbn [bindC].
  rewrite !coalesce_layered.
  rewrite buildStyleVars_textual.
  2,3: rewrite <- coalesce_layered; apply textual_coalesce;
       [apply B|apply textual_or; apply C]; cbn; tauto.
  cbn [bindC].
  rewrite !optionalPart_textual by (apply B; cbn; tauto). cbn [bindC].
  rewrite toString_textual by (apply B; cbn; tauto).
  reflexivity.
Qed.

Lemma mapC_textual (cf : list (string * value)) (elems : list value) :
  textualFields cf pageProps = true ->
  forallb textualButton elems = true ->
  forall i,
    mapC (buttonCard
            (Value.or (field cf pageButtonBackgroundColor)
               (field cf buttonBackgroundColor))
            (Value.or (field cf pageButtonTextColor)
               (field cf buttonTextColor))) i elems
    = Normal (expectedCards cf i elems).
Proof.
  intros Hc. induction elems as [|e r IH]; intros Hall i; [reflexivity|].
  cbn [forallb] in Hall. apply andb_true_iff in Hall as [He Hr].
  cbn [mapC expectedCards].
  destruct e as [| | | | | |f|]; try discriminate He.
  rewrite (buttonCard_textual cf f i Hc He). cbn [bindC].
  now rewrite (IH Hr (S i)).
Qed.



Ltac render_steps :=
  repeat (progress
            (rewrite ?get_obj, ?getOr_obj, ?bind_lift_ok, ?bind_ret_ok)).

Section ForwardRendering.

Variable resolveURL : string -> string.

(** A configuration of strings renders: the list screen shows one card per
    button, each with its colours resolved. *)
Lemma renderButtonsPage_textual (page : string)
  (cf : list (string * value)) (elems : list value) (qs : string)
  (d : document) :
  textualFields cf pageProps = true ->
  field cf buttons = VArr elems ->
  forallb textualButton elems = true ->
  exists d' containerStyle logoPart descPart,
    renderButtonsPage resolveURL page (VObj cf) qs d = (Normal tt, d')
    /\ appHTML d'
       = listView containerStyle logoPart
           (textOf (Value.or (field cf title) (VStr page))) descPart
           (Str.join "" (expectedCards cf 0 elems)).
Proof.
  intros Hc Hb Hall.
  assert (C : forall p, In p pageProps -> isTextual (field cf p) = true)
    by (intros p; now apply textualFields_field).
  destruct (ensureFont_textual resolveURL cf d) as (d1 & E1);
    [apply C; cbn; tauto | apply C; cbn; tauto |].
  destruct (updatePageMeta_textual
              (Value.or (field cf title) (VStr page))
              (Value.or (field cf description) (VStr "")) d1) as (d2 & E2);
    [apply textual_or; [apply C; cbn; tauto | reflexivity]
    |apply textual_or; [apply C; cbn; tauto | reflexivity] |].
  unfold renderButtonsPage.
  rewrite (bind_ok _ _ d d1 tt E1). render_steps.
  rewrite getResourcePath_textual by (apply C; cbn; tauto). render_steps.
  rewrite getResourcePath_textual by (apply C; cbn; tauto). render_steps.
  rewrite (bind_ok _ _ d1 d2 tt E2). render_steps.
  rewrite part_textual by (apply textual_or; apply C; cbn; tauto).
  render_steps.
  rewrite part_textual by (apply C; cbn; tauto). render_steps.
  rewrite toString_textual
    by (apply textual_or; [apply C; cbn; tauto | reflexivity]).
  render_steps.
  rewrite optionalPart_textual by (apply C; cbn; tauto). render_steps.
  rewrite Hb. unfold buttonCards. rewrite (mapC_textual cf elems Hc Hall 0).
  cbn [bindC]. render_steps.
  unfold modify. do 4 eexists. split; [reflexivity|]. reflexivity.
Qed.


End ForwardRendering.

(** ** Colours in the rendered markup *)

Section ColourLayering.

Variable resolveURL : string -> string.




End ColourLayering.


(** ** A configuration without buttons *)

Section AbsentButtons.

Variable resolveURL : string -> string.
Variable replaceState : location -> string -> completion location.

(** C3, as the code has it: on a configuration without [buttons] the
    list screen throws a TypeError before it writes any markup, and
    [init] shows the page-not-found view in its place.  The empty list is
    what an empty array of buttons renders, in a configuration whose
    other fields are strings or absent. *)
Theorem C3_absent_buttons_fault (page qs : string) (d : document) :
  (forall config,
      get config buttons = Normal VUndefined ->
      (exists d',
          renderButtonsPage resolveURL page config qs d
          = (Throw TypeError, d')
          /\ appHTML d' = appHTML d)
      /\ (forall env loc,
            handleRedirect replaceState env = Normal loc ->
            parseURL loc = {| pagePath := Some page; imageIndex := None;
                              queryString := qs |} ->
            loadConfig env page = Normal config ->
            exists d',
              init resolveURL replaceState env d = (Normal tt, d')
              /\ appHTML d'
                 = errorView "页面不存在" ("找不到页面: " ++ page)))
  /\ (forall cf,
        textualFields cf pageProps = true ->
        field cf buttons = VArr [] ->
        exists d' containerStyle logoPart descPart,
          renderButtonsPage resolveURL page (VObj cf) qs d = (Normal tt, d')
          /\ appHTML d'
             = listView containerStyle logoPart
                 (textOf (Value.or (field cf title) (VStr page)))
                 descPart "").
Proof.
  split.
  - intros config H.
    destruct (renderButtonsPage_absent_buttons resolveURL page config qs H d)
      as (d1 & E1 & A1).
    split; [now exists d1|].
    intros env loc Hr Hp Hl.
    rewrite (init_recognized resolveURL replaceState env loc page d Hr)
      by now rewrite Hp.
    unfold tryCatch, loadAndRender, bind at 1, lift. rewrite Hl, Hp.
    cbn [imageIndex queryString]. rewrite E1. cbv [bind modify].
    rewrite renderError_shown. eexists. split; reflexivity.
  - intros cf Hc Hb.
    exact (renderButtonsPage_textual resolveURL page cf [] qs d Hc Hb
             eq_refl).
Qed.

End AbsentButtons.

Lemma C3_absent_buttons_fault_witness :
  (exists d',
      renderButtonsPage resolveSame "demo" (VObj [("title", VStr "Demo")])
        "" blankDocument = (Throw TypeError, d')
      /\ appHTML d' = "")
  /\ (exists d' containerStyle logoPart descPart,
        renderButtonsPage resolveSame "demo"
          (VObj [("title", VStr "Demo"); ("buttons", VArr [])])
          "" blankDocument = (Normal tt, d')
        /\ appHTML d' = listView containerStyle logoPart "Demo" descPart "").
Proof.
  destruct (C3_absent_buttons_fault resolveSame stay "demo" ""
              blankDocument) as (A & B).
  split.
  - exact (proj1 (A (VObj [("title", VStr "Demo")]) eq_refl)).
  - exact (B [("title", VStr "Demo"); ("buttons", VArr [])]
             eq_refl eq_refl).
Defined.
